(** * VisionBuf over ION / dma-buf: a shallow embedding of
      msgq/visionipc/visionbuf_dma-buf.cc

    The source is a handful of methods that talk to three collaborators:
    the kernel buffer heap (ioctl on /dev/ion), the virtual-memory mapper
    (mmap, munmap, close) and the OpenCL runtime (clCreateBuffer,
    clReleaseMemObject).  The methods are embedded as programs of a small
    monad whose only effect is a call to a collaborator; an interpreter
    runs a program against any collaborator and records every call with
    its answer.  A reference kernel gives the collaborators a concrete
    behaviour with real memory. *)

From Stdlib Require Import ZArith List Bool Lia String.
Import ListNotations.
Open Scope Z_scope.

(** ** Machine integers and constants *)

(** [size_t] and pointers are 64 bits wide on the target. *)
Definition SIZE_WIDTH : Z := 64.
Definition to_size_t (z : Z) : Z := z mod 2 ^ SIZE_WIDTH.

(** Source, lines 30, 54 and 55. *)
Definition MAP_SHARED : Z := 1.
Definition DEVICE_PAGE_SIZE_CL : Z := 4096.
Definition PADDING_CL : Z := 0.

Definition sizeof_uint64_t : Z := 8.

(** Values of the system headers the source includes (errno.h,
    sys/mman.h, fcntl.h, linux/dma-buf.h, linux/ion.h, CL/cl_ext.h). *)
Definition EINTR : Z := 4.
Definition EBADF : Z := 9.
Definition ENOMEM : Z := 12.
Definition EINVAL : Z := 22.
Definition PROT_READ : Z := 1.
Definition PROT_WRITE : Z := 2.
Definition MAP_FAILED : Z := 2 ^ SIZE_WIDTH - 1.   (* (void* )-1 *)
Definition O_RDWR : Z := 2.
Definition O_NONBLOCK : Z := 2048.
Definition ION_FLAG_CACHED : Z := 1.
Definition DMA_BUF_SYNC_RW : Z := 3.
Definition DMA_BUF_SYNC_START : Z := 0.
Definition DMA_BUF_SYNC_END : Z := 4.
Definition CL_MEM_USE_HOST_PTR : Z := 8.
Definition CL_MEM_EXT_HOST_PTR_QCOM : Z := 536870912.   (* 1 << 29 *)
Definition CL_MEM_ION_HOST_PTR_QCOM : Z := 16552.       (* 0x40A8 *)
Definition CL_MEM_HOST_UNCACHED_QCOM : Z := 16548.      (* 0x40A4 *)
Definition CL_INVALID_MEM_OBJECT : Z := -38.
Definition CL_INVALID_HOST_PTR : Z := -37.

(** ** Calls to the collaborators *)

(** One constructor per call the source makes, with the arguments it
    passes.  [CIoctlIonAlloc] carries the three fields of
    [struct ion_allocation_data] the kernel reads; the kernel writes the
    [fd] field and leaves the others as the program set them.
    [CClCreateBuffer] carries the fields of the [cl_mem_ion_host_ptr]
    descriptor after the context, the flags and the size. *)
Inductive call : Type :=
| COpen (path : string) (flags : Z)
| CIoctlIonAlloc (fd : Z) (len heap_id_mask flags : Z)
| CIoctlSync (fd : Z) (flags : Z)
| CMmap (hint len prot flags fd off : Z)
| CMemset (s c n : Z)
| CMunmap (addr len : Z)
| CClose (fd : Z)
| CClCreateBuffer (ctx flags size allocation_type host_cache_policy
                   ion_filedesc ion_hostptr : Z)
| CClReleaseMemObject (mem : Z).

(** What a call hands back: its return value, the value of [errno] after
    it (meaningful when the call failed), and the value it stored through
    its output parameter ([ion_alloc.fd] for the allocation ioctl, [err]
    for [clCreateBuffer]). *)
Record answer : Type := Answer { ret : Z; errno : Z; out : Z }.

Definition entry : Type := (call * answer)%type.

(** ** Programs *)

(** A program returns, dies on a failed [assert], or calls a collaborator
    and goes on with the answer. *)
Inductive prog (A : Type) : Type :=
| Ret (a : A)
| Abort
| Sys (c : call) (k : answer -> prog A).

Arguments Ret {A} a.
Arguments Abort {A}.
Arguments Sys {A} c k.

Fixpoint pbind {A B : Type} (p : prog A) (f : A -> prog B) : prog B :=
  match p with
  | Ret a => f a
  | Abort => Abort
  | Sys c k => Sys c (fun r => pbind (k r) f)
  end.

Inductive outcome (A : Type) : Type :=
| Returned (a : A)
| Aborted.

Arguments Returned {A} a.
Arguments Aborted {A}.

Record result (W A : Type) : Type :=
  Result { trace : list entry; final : outcome A; world : W }.

Arguments Result {W A} trace final world.
Arguments trace {W A} r.
Arguments final {W A} r.
Arguments world {W A} r.

(** A collaborator answers a call and moves to its next state. *)
Definition handler (W : Type) : Type := call -> W -> answer * W.

Fixpoint run {W A : Type} (h : handler W) (p : prog A) (w : W) : result W A :=
  match p with
  | Ret a => Result [] (Returned a) w
  | Abort => Result [] Aborted w
  | Sys c k =>
      let (r, w1) := h c w in
      let R := run h (k r) w1 in
      Result ((c, r) :: trace R) (final R) (world R)
  end.

(** ** The object and the process state *)

(** The fields of [VisionBuf] this source file reads or writes (the class
    is declared in visionbuf.h). *)
Record VisionBuf : Type := mkVisionBuf {
  len : Z;
  mmap_len : Z;
  addr : Z;
  frame_id : Z;
  fd : Z;
  buf_cl : Z
}.

(** [fh] is the function-local static of [ion_fd]: [None] until the first
    call has constructed it.  [this] is the receiver of the method being
    executed. *)
Record proc : Type := mkProc {
  fh : option Z;
  this : VisionBuf
}.

Definition cmd (A : Type) : Type := proc -> prog (A * proc).

Definition pure {A : Type} (a : A) : cmd A := fun st => Ret (a, st).

Definition bind {A B : Type} (m : cmd A) (f : A -> cmd B) : cmd B :=
  fun st => pbind (m st) (fun p => f (fst p) (snd p)).

Notation "x <- m ;; k" := (bind m (fun x => k))
  (at level 61, m at next level, right associativity).
Notation "m ;;; k" := (bind m (fun _ => k))
  (at level 61, right associativity).

Definition sys (c : call) : cmd answer := fun st => Sys c (fun r => Ret (r, st)).

Definition assert (b : bool) : cmd unit :=
  fun st => if b then Ret (tt, st) else Abort.

Definition get_this : cmd VisionBuf := fun st => Ret (this st, st).

Definition update (f : VisionBuf -> VisionBuf) : cmd unit :=
  fun st => Ret (tt, mkProc (fh st) (f (this st))).

Definition set_len (v : Z) (b : VisionBuf) : VisionBuf :=
  mkVisionBuf v (mmap_len b) (addr b) (frame_id b) (fd b) (buf_cl b).
Definition set_mmap_len (v : Z) (b : VisionBuf) : VisionBuf :=
  mkVisionBuf (len b) v (addr b) (frame_id b) (fd b) (buf_cl b).
Definition set_addr (v : Z) (b : VisionBuf) : VisionBuf :=
  mkVisionBuf (len b) (mmap_len b) v (frame_id b) (fd b) (buf_cl b).
Definition set_frame_id (v : Z) (b : VisionBuf) : VisionBuf :=
  mkVisionBuf (len b) (mmap_len b) (addr b) v (fd b) (buf_cl b).
Definition set_fd (v : Z) (b : VisionBuf) : VisionBuf :=
  mkVisionBuf (len b) (mmap_len b) (addr b) (frame_id b) v (buf_cl b).
Definition set_buf_cl (v : Z) (b : VisionBuf) : VisionBuf :=
  mkVisionBuf (len b) (mmap_len b) (addr b) (frame_id b) (fd b) v.

(** ** HANDLE_EINTR (source, lines 33-41) *)

Definition interrupted (r : answer) : bool :=
  (ret r =? -1) && (errno r =? EINTR).

(** The do-while loop.  [left] is [100 - try_cnt]: the test
    [try_cnt++ < 100] is evaluated only after an interrupted attempt, it
    lets the loop go round while [try_cnt] is below 100 and stops it at
    100, whatever the attempt gave. *)
Fixpoint eintr_loop (left : nat) (x : cmd answer) : cmd answer :=
  r <- x ;;
  if interrupted r then
    match left with
    | S left' => eintr_loop left' x
    | O => pure r
    end
  else pure r.

Definition HANDLE_EINTR (x : cmd answer) : cmd answer := eintr_loop 100 x.

(** ** ion_fd and IonFileHandle (source, lines 57-71) *)

Definition ion_fd : cmd Z :=
  fun st =>
    match fh st with
    | Some d => Ret (d, st)
    | None =>
        Sys (COpen "/dev/ion" (Z.lor O_RDWR O_NONBLOCK)) (fun r =>
          if 0 <=? ret r
          then Ret (ret r, mkProc (Some (ret r)) (this st))
          else Abort)
    end.

(** ** A reference kernel *)

(** The collaborators as one state machine: a descriptor table, dma-buf
    contents, the mappings of the process, the live OpenCL memory
    objects, and a script of choices that stands for everything the
    program cannot control (whether the heap grants, where the mapper
    places a mapping, whether a call is interrupted).  A choice of 0 lets
    a call succeed, any other value is the error it fails with; for
    [mmap] the choice is the address the mapper proposes. *)
Module Kernel.

Inductive file : Type :=
| FTty
| FIonDev
| FDmaBuf (id : Z).

Record vma : Type := mkVma { vm_start : Z; vm_len : Z; vm_buf : Z }.

Record state : Type := mkState {
  k_files : list (Z * file);   (* open descriptors *)
  k_next_buf : Z;              (* identity of the next dma-buf *)
  k_cells : Z -> Z -> Z;       (* buffer -> offset -> byte *)
  k_vmas : list vma;           (* mappings, newest first *)
  k_mems : list Z;             (* live cl_mem objects *)
  k_script : list Z            (* choices still to be made *)
}.

Definition choose (k : state) : Z * state :=
  match k_script k with
  | [] => (0, k)
  | d :: s =>
      (d, mkState (k_files k) (k_next_buf k) (k_cells k) (k_vmas k) (k_mems k) s)
  end.

Definition lookup_fd (d : Z) (k : state) : option file :=
  match find (fun e => fst e =? d) (k_files k) with
  | Some e => Some (snd e)
  | None => None
  end.

Definition fd_in_use (files : list (Z * file)) (d : Z) : bool :=
  existsb (fun e => fst e =? d) files.

(** The lowest descriptor not in use. *)
Definition first_free (files : list (Z * file)) : Z :=
  match find (fun d => negb (fd_in_use files d))
             (map Z.of_nat (seq 0 (S (List.length files)))) with
  | Some d => d
  | None => Z.of_nat (List.length files)
  end.

Definition covers (a : Z) (v : vma) : bool :=
  (vm_start v <=? a) && (a <? vm_start v + vm_len v).

Definition find_vma (a : Z) (k : state) : option vma :=
  find (covers a) (k_vmas k).

Definition load (k : state) (a : Z) : option Z :=
  match find_vma a k with
  | Some v => Some (k_cells k (vm_buf v) (a - vm_start v))
  | None => None
  end.

(** A store to an address outside every mapping is dropped (the one
    [memset] of the source runs over a range it has just mapped). *)
Definition store (k : state) (a c : Z) : state :=
  match find_vma a k with
  | Some v =>
      mkState (k_files k) (k_next_buf k)
        (fun i o => if (i =? vm_buf v) && (o =? a - vm_start v) then c
                    else k_cells k i o)
        (k_vmas k) (k_mems k) (k_script k)
  | None => k
  end.

Fixpoint memset_bytes (n : nat) (s c : Z) (k : state) : state :=
  match n with
  | O => k
  | S n' => memset_bytes n' (s + 1) c (store k s c)
  end.

Definition intersects (a l : Z) (v : vma) : bool :=
  (vm_start v <? a + l) && (a <? vm_start v + vm_len v).

(** Where the mapper may place [l] bytes: never at address 0, on a page
    boundary, below the top of the address space, clear of the mappings
    that exist. *)
Definition placeable (p l : Z) (k : state) : bool :=
  (0 <? p) && (p mod DEVICE_PAGE_SIZE_CL =? 0) && (0 <? l)
  && (p + l <? 2 ^ SIZE_WIDTH)
  && forallb (fun v => negb (intersects p l v)) (k_vmas k).

Definition fresh_mem (mems : list Z) : Z := 1 + fold_right Z.max 0 mems.

Definition fail (e : Z) : answer := Answer (-1) e 0.

Definition step : handler state := fun c k =>
  match c with
  | COpen path flags =>
      let (d, k1) := choose k in
      if negb (d =? 0) then (fail d, k1)
      else if negb (String.eqb path "/dev/ion") then (fail 2, k1)
      else
        let n := first_free (k_files k1) in
        (Answer n 0 0,
         mkState ((n, FIonDev) :: k_files k1) (k_next_buf k1) (k_cells k1)
                 (k_vmas k1) (k_mems k1) (k_script k1))
  | CIoctlIonAlloc d l mask flags =>
      match lookup_fd d k with
      | Some FIonDev =>
          let (e, k1) := choose k in
          if negb (e =? 0) then (fail e, k1)
          else if l =? 0 then (fail EINVAL, k1)
          else
            let n := first_free (k_files k1) in
            (Answer 0 0 n,
             mkState ((n, FDmaBuf (k_next_buf k1)) :: k_files k1)
                     (k_next_buf k1 + 1) (k_cells k1)
                     (k_vmas k1) (k_mems k1) (k_script k1))
      | _ => (fail EBADF, k)
      end
  | CIoctlSync d flags =>
      match lookup_fd d k with
      | Some (FDmaBuf _) =>
          let (e, k1) := choose k in
          if e =? 0 then (Answer 0 0 0, k1) else (fail e, k1)
      | _ => (fail EBADF, k)
      end
  | CMmap hint l prot flags d off =>
      match lookup_fd d k with
      | Some (FDmaBuf id) =>
          let (p, k1) := choose k in
          if (off =? 0) && placeable p l k1 then
            (Answer p 0 0,
             mkState (k_files k1) (k_next_buf k1) (k_cells k1)
                     (mkVma p l id :: k_vmas k1) (k_mems k1) (k_script k1))
          else (Answer MAP_FAILED ENOMEM 0, k1)
      | _ => (Answer MAP_FAILED EBADF 0, k)
      end
  | CMemset s v n =>
      (Answer s 0 0, memset_bytes (Z.to_nat n) s (v mod 256) k)
  | CMunmap a l =>
      if (a mod DEVICE_PAGE_SIZE_CL =? 0) && (0 <? l) then
        let (e, k1) := choose k in
        if e =? 0 then
          (Answer 0 0 0,
           mkState (k_files k1) (k_next_buf k1) (k_cells k1)
                   (filter (fun v => negb (intersects a l v)) (k_vmas k1))
                   (k_mems k1) (k_script k1))
        else (fail e, k1)
      else (fail EINVAL, k)
  | CClose d =>
      match lookup_fd d k with
      | Some _ =>
          let (e, k1) := choose k in
          (if e =? 0 then Answer 0 0 0 else fail e,
           mkState (filter (fun x => negb (fst x =? d)) (k_files k1))
                   (k_next_buf k1) (k_cells k1) (k_vmas k1) (k_mems k1)
                   (k_script k1))
      | None => (fail EBADF, k)
      end
  | CClCreateBuffer ctx flags size ty policy d hostptr =>
      let (e, k1) := choose k in
      if negb (e =? 0) then (Answer 0 0 e, k1)
      else
        match lookup_fd d k1, find_vma hostptr k1 with
        | Some (FDmaBuf _), Some _ =>
            let m := fresh_mem (k_mems k1) in
            (Answer m 0 0,
             mkState (k_files k1) (k_next_buf k1) (k_cells k1) (k_vmas k1)
                     (m :: k_mems k1) (k_script k1))
        | _, _ => (Answer 0 0 CL_INVALID_HOST_PTR, k1)
        end
  | CClReleaseMemObject m =>
      if existsb (Z.eqb m) (k_mems k) then
        let (e, k1) := choose k in
        if e =? 0 then
          (Answer 0 0 0,
           mkState (k_files k1) (k_next_buf k1) (k_cells k1) (k_vmas k1)
                   (filter (fun x => negb (x =? m)) (k_mems k1)) (k_script k1))
        else (Answer e 0 0, k1)
      else (Answer CL_INVALID_MEM_OBJECT 0 0, k)
  end.

(** A process that has just started: standard input, output and error
    are open (descriptors 0, 1 and 2 are taken), nothing is mapped, and
    heap memory holds whatever [stale] says. *)
Definition boot (stale : Z -> Z -> Z) (script : list Z) : state :=
  mkState [(0, FTty); (1, FTty); (2, FTty)] 0 stale [] [] script.

End Kernel.

(** ** The methods of VisionBuf *)

Section Source.

(** Constants of headers that are not part of the sources:
    [ION_SYSTEM_HEAP_ID] comes from linux/msm_ion.h, the two directions
    from visionbuf.h.  Nothing below depends on their values. *)
Variable ION_SYSTEM_HEAP_ID : Z.
Variables VISIONBUF_SYNC_FROM_DEVICE VISIONBUF_SYNC_TO_DEVICE : Z.

(** The request [allocate] hands to the heap through descriptor [d]. *)
Definition ion_alloc_request (d length : Z) : call :=
  CIoctlIonAlloc d
    (to_size_t (length + PADDING_CL + sizeof_uint64_t))   (* ion_alloc.len *)
    (Z.shiftl 1 ION_SYSTEM_HEAP_ID)                       (* heap_id_mask *)
    ION_FLAG_CACHED.                                      (* flags *)

(** Source, lines 73-101.  [length] is a [size_t].  [ion_alloc.fd] is
    read after the retry loop: it is what the last attempt stored. *)
Definition allocate (length : Z) : cmd unit :=
  let ion_alloc_len := to_size_t (length + PADDING_CL + sizeof_uint64_t) in
  r <- HANDLE_EINTR (d <- ion_fd ;; sys (ion_alloc_request d length)) ;;
  let err := ret r in
  assert (err =? 0) ;;;
  let ion_alloc_fd := out r in
  m <- sys (CMmap 0 ion_alloc_len (Z.lor PROT_READ PROT_WRITE)
                  MAP_SHARED ion_alloc_fd 0) ;;
  let mmap_addr := ret m in
  assert (negb (mmap_addr =? MAP_FAILED)) ;;;
  sys (CMemset mmap_addr 0 ion_alloc_len) ;;;
  update (set_len length) ;;;
  update (set_mmap_len ion_alloc_len) ;;;
  update (set_addr mmap_addr) ;;;
  update (set_fd ion_alloc_fd) ;;;
  b <- get_this ;;
  update (set_frame_id (to_size_t (addr b + len b + PADDING_CL))).

(** Source, lines 103-108. *)
Definition import : cmd unit :=
  b <- get_this ;;
  assert (0 <=? fd b) ;;;
  m <- sys (CMmap 0 (mmap_len b) (Z.lor PROT_READ PROT_WRITE)
                  MAP_SHARED (fd b) 0) ;;
  update (set_addr (ret m)) ;;;
  assert (negb (ret m =? MAP_FAILED)) ;;;
  b <- get_this ;;
  update (set_frame_id (to_size_t (addr b + len b + PADDING_CL))).

(** Source, lines 111-122. *)
Definition init_cl (device_id ctx : Z) : cmd unit :=
  b <- get_this ;;
  assert (addr b mod DEVICE_PAGE_SIZE_CL =? 0) ;;;
  r <- sys (CClCreateBuffer ctx
              (Z.lor CL_MEM_USE_HOST_PTR CL_MEM_EXT_HOST_PTR_QCOM)
              (len b)
              CL_MEM_ION_HOST_PTR_QCOM     (* ext_host_ptr.allocation_type *)
              CL_MEM_HOST_UNCACHED_QCOM    (* ext_host_ptr.host_cache_policy *)
              (fd b)                       (* ion_filedesc *)
              (addr b)) ;;                 (* ion_hostptr *)
  update (set_buf_cl (ret r)) ;;;
  let err := out r in
  assert (err =? 0).

Definition sync_flags (dir : Z) : Z :=
  if dir =? VISIONBUF_SYNC_FROM_DEVICE
  then Z.lor DMA_BUF_SYNC_START DMA_BUF_SYNC_RW
  else Z.lor DMA_BUF_SYNC_END DMA_BUF_SYNC_RW.

(** Source, lines 124-133. *)
Definition sync (dir : Z) : cmd Z :=
  assert ((dir =? VISIONBUF_SYNC_FROM_DEVICE)
          || (dir =? VISIONBUF_SYNC_TO_DEVICE)) ;;;
  b <- get_this ;;
  r <- HANDLE_EINTR (sys (CIoctlSync (fd b) (sync_flags dir))) ;;
  pure (ret r).

(** Source, lines 135-148.  Each [return] of the source is a [pure]. *)
Definition free : cmd Z :=
  b <- get_this ;;
  let unmap_and_close : cmd Z :=
    u <- sys (CMunmap (addr b) (mmap_len b)) ;;
    let err := ret u in
    if negb (err =? 0) then pure err
    else
      c <- sys (CClose (fd b)) ;;
      pure (ret c) in
  if negb (buf_cl b =? 0) then
    r <- sys (CClReleaseMemObject (buf_cl b)) ;;
    let err := ret r in
    if negb (err =? 0) then pure err
    else unmap_and_close
  else unmap_and_close.

(** ** Vocabulary for traces *)

Definition calls (t : list entry) : list call := map fst t.

(** Attempts of one and the same request that were all interrupted. *)
Definition retried (c : call) (pre : list entry) : Prop :=
  Forall (fun e => fst e = c /\ interrupted (snd e) = true) pre.

Definition open_request : call := COpen "/dev/ion" (Z.lor O_RDWR O_NONBLOCK).

(** How [ion_fd] came by the descriptor [d]: the static was already
    constructed, or this call opened the device. *)
Definition opening (st : proc) (opens : list entry) (d : Z) : Prop :=
  (fh st = Some d /\ opens = [])
  \/ (fh st = None /\ exists ro, opens = [(open_request, ro)]
                                /\ 0 <= ret ro /\ d = ret ro).

Definition mmap_request (l d : Z) : call :=
  CMmap 0 l (Z.lor PROT_READ PROT_WRITE) MAP_SHARED d 0.

Definition is_ion_alloc (c : call) : bool :=
  match c with CIoctlIonAlloc _ _ _ _ => true | _ => false end.
Definition is_mmap (c : call) : bool :=
  match c with CMmap _ _ _ _ _ _ => true | _ => false end.
Definition is_cl_release (c : call) : bool :=
  match c with CClReleaseMemObject _ => true | _ => false end.
Definition is_munmap (c : call) : bool :=
  match c with CMunmap _ _ => true | _ => false end.
Definition is_close (c : call) : bool :=
  match c with CClose _ => true | _ => false end.

(** The total [allocate] asks for. *)
Definition alloc_len (length : Z) : Z :=
  to_size_t (length + PADDING_CL + sizeof_uint64_t).

(** The object [allocate] leaves behind when it returns. *)
Definition allocated (st : proc) (length : Z) (r m : answer) : VisionBuf :=
  mkVisionBuf length (alloc_len length) (ret m)
              (to_size_t (ret m + length + PADDING_CL))
              (out r) (buf_cl (this st)).

(** Some heap request of the trace was granted; some mapping call of the
    trace gave an address. *)
Definition heap_granted (t : list entry) : bool :=
  existsb (fun e => is_ion_alloc (fst e) && (ret (snd e) =? 0)) t.
Definition mapping_made (t : list entry) : bool :=
  existsb (fun e => is_mmap (fst e) && negb (ret (snd e) =? MAP_FAILED)) t.

(** The teardown calls of [free] in the order the source issues them. *)
Definition teardown (b : VisionBuf) : list call :=
  (if buf_cl b =? 0 then [] else [CClReleaseMemObject (buf_cl b)])
  ++ [CMunmap (addr b) (mmap_len b); CClose (fd b)].

Arguments to_size_t : simpl never.

Ltac run_step :=
  cbn [run pbind bind pure sys assert get_this update fst snd negb
       trace final world this fh].

(** Case analysis of a run of straight-line code: on every answer of the
    collaborator and on every test the program makes of it. *)
Ltac run_cases_with h :=
  repeat (run_step;
          match goal with
          | |- context [h ?c ?w] =>
              let r := fresh "r" in
              let w1 := fresh "w" in
              let E := fresh "E" in
              destruct (h c w) as [r w1] eqn:E
          | |- context [assert ?b] =>
              lazymatch b with
              | true => fail
              | false => fail
              | negb ?b' => let Hb := fresh "Hb" in destruct b' eqn:Hb
              | _ => let Hb := fresh "Hb" in destruct b eqn:Hb
              end
          | |- context [if negb ?b then _ else _] =>
              let Hb := fresh "Hb" in destruct b eqn:Hb
          | |- context [if ?b then _ else _] =>
              let Hb := fresh "Hb" in destruct b eqn:Hb
          end);
  run_step.

Ltac eqb_hyps :=
  repeat match goal with
         | H : (_ =? _) = true |- _ => apply Z.eqb_eq in H
         | H : (_ =? _) = false |- _ => apply Z.eqb_neq in H
         end.

(** ** Running programs against an arbitrary collaborator *)

Section Collaborator.

Variables (W : Type) (h : handler W).

Ltac run_cases := run_cases_with h.

(** The four ways a run of [allocate] can go. *)
Inductive alloc_run (length : Z) (st : proc) :
  list entry -> outcome (unit * proc) -> W -> Prop :=
| AR_no_device ro w' :
    fh st = None -> ret ro < 0 ->
    alloc_run length st [(open_request, ro)] Aborted w'
| AR_denied opens d pre r w' :
    opening st opens d ->
    retried (ion_alloc_request d length) pre ->
    (List.length pre <= 100)%nat ->
    (interrupted r = true -> List.length pre = 100%nat) ->
    ret r <> 0 ->
    alloc_run length st
      (opens ++ pre ++ [(ion_alloc_request d length, r)]) Aborted w'
| AR_map_failed opens d pre r m w' :
    opening st opens d ->
    retried (ion_alloc_request d length) pre ->
    (List.length pre <= 100)%nat ->
    ret r = 0 -> ret m = MAP_FAILED ->
    alloc_run length st
      (opens ++ pre ++ [(ion_alloc_request d length, r);
                        (mmap_request (alloc_len length) (out r), m)])
      Aborted w'
| AR_done opens d pre r m s w2 w3 w' :
    opening st opens d ->
    retried (ion_alloc_request d length) pre ->
    (List.length pre <= 100)%nat ->
    ret r = 0 -> ret m <> MAP_FAILED ->
    h (mmap_request (alloc_len length) (out r)) w2 = (m, w3) ->
    h (CMemset (ret m) 0 (alloc_len length)) w3 = (s, w') ->
    alloc_run length st
      (opens ++ pre ++ [(ion_alloc_request d length, r);
                        (mmap_request (alloc_len length) (out r), m);
                        (CMemset (ret m) 0 (alloc_len length), s)])
      (Returned (tt, mkProc (Some d) (allocated st length r m))) w'.

Lemma run_pbind (A B : Type) (p : prog A) (f : A -> prog B) (w : W) :
  run h (pbind p f) w =
  match final (run h p w) with
  | Returned a =>
      Result (trace (run h p w) ++ trace (run h (f a) (world (run h p w))))
             (final (run h (f a) (world (run h p w))))
             (world (run h (f a) (world (run h p w))))
  | Aborted => Result (trace (run h p w)) Aborted (world (run h p w))
  end.
Proof.
  revert w; induction p as [a| |c k IH]; intros w; cbn [pbind run].
  - cbn [final trace world app]. now destruct (run h (f a) w).
  - reflexivity.
  - destruct (h c w) as [r w1]. rewrite IH. cbn [final trace world].
    now destruct (final (run h (k r) w1)).
Qed.

Lemma run_bind (A B : Type) (m : cmd A) (f : A -> cmd B) (st : proc) (w : W) :
  run h (bind m f st) w =
  match final (run h (m st) w) with
  | Returned (a, st1) =>
      Result (trace (run h (m st) w)
                ++ trace (run h (f a st1) (world (run h (m st) w))))
             (final (run h (f a st1) (world (run h (m st) w))))
             (world (run h (f a st1) (world (run h (m st) w))))
  | Aborted => Result (trace (run h (m st) w)) Aborted (world (run h (m st) w))
  end.
Proof.
  unfold bind. rewrite run_pbind.
  destruct (final (run h (m st) w)) as [[a st1]|]; reflexivity.
Qed.

Lemma eintr_loop_step (n : nat) (x : cmd answer) (c : call) (st : proc) (w : W) :
  x st = sys c st ->
  run h (eintr_loop n x st) w =
  let (r, w1) := h c w in
  if interrupted r then
    match n with
    | S n' =>
        let R := run h (eintr_loop n' x st) w1 in
        Result ((c, r) :: trace R) (final R) (world R)
    | O => Result [(c, r)] (Returned (r, st)) w1
    end
  else Result [(c, r)] (Returned (r, st)) w1.
Proof.
  intros Hx.
  destruct n; cbn [eintr_loop]; unfold bind at 1; rewrite Hx; run_step;
    destruct (h c w) as [r w1]; destruct (interrupted r); reflexivity.
Qed.

(** The retry loop around a computation that, in state [st], is one call
    [c] and leaves [st] as it is: the call is issued between 1 and
    [n + 1] times, every attempt but the last was interrupted, and the
    answer of the last attempt is the result. *)
Lemma eintr_loop_run (n : nat) (x : cmd answer) (c : call) (st : proc) :
  x st = sys c st ->
  forall w, exists pre r w0,
    trace (run h (eintr_loop n x st) w) = pre ++ [(c, r)]
    /\ final (run h (eintr_loop n x st) w) = Returned (r, st)
    /\ retried c pre
    /\ (List.length pre <= n)%nat
    /\ (interrupted r = true -> List.length pre = n)
    /\ h c w0 = (r, world (run h (eintr_loop n x st) w)).
Proof.
  intros Hx. induction n as [|n IH]; intros w;
    rewrite (eintr_loop_step _ _ _ _ w Hx); destruct (h c w) as [r w1] eqn:E.
  - exists [], r, w. destruct (interrupted r) eqn:Ei; cbn [trace final world];
      repeat split; auto; constructor.
  - destruct (interrupted r) eqn:Ei.
    + destruct (IH w1) as (pre & r' & w0 & Ht & Hf & Hr & Hl & Hi & Hh).
      exists ((c, r) :: pre), r', w0.
      cbn [trace final world]. rewrite Ht, Hf.
      repeat split; auto.
      * constructor; auto.
      * cbn [List.length]. lia.
      * intros Hr'. cbn [List.length]. now rewrite (Hi Hr').
    + exists [], r, w. cbn [trace final world].
      repeat split; auto; try constructor.
      * cbn [List.length]. lia.
      * congruence.
Qed.

Lemma interrupted_ret (r : answer) : interrupted r = true -> ret r = -1.
Proof.
  unfold interrupted. intros H. apply andb_true_iff in H. lia.
Qed.

(** [sync] with a valid direction is its retry loop, with the return
    value of the last attempt as result. *)
Lemma sync_unfold (dir : Z) (st : proc) (w : W) :
  dir = VISIONBUF_SYNC_FROM_DEVICE \/ dir = VISIONBUF_SYNC_TO_DEVICE ->
  run h (sync dir st) w =
  Result
    (trace (run h (HANDLE_EINTR
                     (sys (CIoctlSync (fd (this st)) (sync_flags dir))) st) w))
    (match final (run h (HANDLE_EINTR
                     (sys (CIoctlSync (fd (this st)) (sync_flags dir))) st) w)
     with
     | Returned x => Returned (ret (fst x), snd x)
     | Aborted => Aborted
     end)
    (world (run h (HANDLE_EINTR
                     (sys (CIoctlSync (fd (this st)) (sync_flags dir))) st) w)).
Proof.
  intros Hdir.
  assert (Hb : (dir =? VISIONBUF_SYNC_FROM_DEVICE)
               || (dir =? VISIONBUF_SYNC_TO_DEVICE) = true).
  { destruct Hdir; subst; rewrite Z.eqb_refl; auto using orb_true_r. }
  unfold sync. rewrite Hb. run_step. rewrite run_bind.
  destruct (final (run h (HANDLE_EINTR _ st) w)) as [[r s]|]; run_step;
    rewrite ?app_nil_r; reflexivity.
Qed.

Lemma firstn_teardown (b : VisionBuf) (t : list call) :
  (exists n, (1 <= n)%nat /\ t = firstn n (teardown b)) <->
  (buf_cl b = 0 /\
     (t = [CMunmap (addr b) (mmap_len b)]
      \/ t = [CMunmap (addr b) (mmap_len b); CClose (fd b)]))
  \/ (buf_cl b <> 0 /\
     (t = [CClReleaseMemObject (buf_cl b)]
      \/ t = [CClReleaseMemObject (buf_cl b); CMunmap (addr b) (mmap_len b)]
      \/ t = teardown b)).
Proof.
  unfold teardown. destruct (buf_cl b =? 0) eqn:Hb; cbn [app].
  - apply Z.eqb_eq in Hb. split.
    + intros (n & Hn & ->). left. split; auto.
      destruct n as [|[|[|n]]]; cbn; auto; lia.
    + intros [[_ [-> | ->]] | [Hne _]]; try contradiction.
      * exists 1%nat. split; auto.
      * exists 2%nat. split; auto.
  - apply Z.eqb_neq in Hb. split.
    + intros (n & Hn & ->). right. split; auto.
      destruct n as [|[|[|[|n]]]]; cbn; auto; lia.
    + intros [[He _] | [_ [-> | [-> | ->]]]]; try contradiction.
      * exists 1%nat. split; auto.
      * exists 2%nat. split; auto.
      * exists 3%nat. split; auto.
Qed.

(** C2. [free] issues its teardown calls in the order release of the
    compute memory object, then unmap, then close: the calls it makes are
    a non-empty initial segment of [teardown], and each step that
    succeeds is followed by the next one.
    - A buffer that was never registered sees no release call at all:
      the first call is the unmap, and an unmap that succeeds is followed
      by the close, which ends the run and whose status is returned.
    - On a registered buffer the release comes first.  When it fails
      [free] returns its error at once: the trace holds that single call
      (no unmap, no close).  When it succeeds the unmap is the next call,
      and an unmap that succeeds is followed by the close, which ends the
      run and whose status is returned. *)
Theorem free_order (st : proc) (w : W) :
  (exists n, (1 <= n)%nat /\
     calls (trace (run h (free st) w)) = firstn n (teardown (this st)))
  /\ (buf_cl (this st) = 0 ->
      (forall e, In e (trace (run h (free st) w)) ->
                 is_cl_release (fst e) = false)
      /\ exists u t,
          trace (run h (free st) w)
            = (CMunmap (addr (this st)) (mmap_len (this st)), u) :: t
          /\ (ret u = 0 ->
              exists c,
                t = [(CClose (fd (this st)), c)]
                /\ final (run h (free st) w) = Returned (ret c, st)))
  /\ (buf_cl (this st) <> 0 ->
      exists r t,
        trace (run h (free st) w)
          = (CClReleaseMemObject (buf_cl (this st)), r) :: t
        /\ (ret r <> 0 ->
            t = [] /\ final (run h (free st) w) = Returned (ret r, st))
        /\ (ret r = 0 ->
            exists u t',
              t = (CMunmap (addr (this st)) (mmap_len (this st)), u) :: t'
              /\ (ret u = 0 ->
                  exists c,
                    t' = [(CClose (fd (this st)), c)]
                    /\ final (run h (free st) w) = Returned (ret c, st)))).
Proof.
  split; [|split].
  - apply firstn_teardown.
    unfold free, teardown; run_cases; cbn [calls map fst app];
      eqb_hyps; tauto.
  - intros H0. split.
    + unfold free; run_cases; eqb_hyps; try contradiction;
        intros e He; cbn [In] in He;
        repeat (destruct He as [<- | He]; [reflexivity|]); contradiction.
    + unfold free; run_cases; eqb_hyps; try contradiction;
        eexists; eexists; (split; [reflexivity|]); intros Hu;
        try contradiction; eexists; split; reflexivity.
  - intros H0.
    unfold free; run_cases; eqb_hyps; try contradiction;
      eexists; eexists; (split; [reflexivity|]);
      (split; [intros Hr; try contradiction; auto|]);
      intros Hr; try contradiction;
      eexists; eexists; (split; [reflexivity|]); intros Hu;
      try contradiction; eexists; split; reflexivity.
Qed.

(** C3, as amended.  [free] runs its teardown calls in order up to and
    including the first that fails and returns the status of the last
    call it made: every call before the last succeeded, all the calls of
    [teardown] were made when the last one succeeded, and when the last
    call is a failed unmap no close was issued. *)
Theorem free_stops_at_first_failure (st : proc) (w : W) :
  exists t c r,
    trace (run h (free st) w) = t ++ [(c, r)]
    /\ Forall (fun e => ret (snd e) = 0) t
    /\ final (run h (free st) w) = Returned (ret r, st)
    /\ (ret r = 0 -> calls (trace (run h (free st) w)) = teardown (this st))
    /\ (ret r <> 0 -> is_munmap c = true ->
        forall e, In e (trace (run h (free st) w)) -> is_close (fst e) = false).
Proof.
  unfold free, teardown; run_cases; eqb_hyps.
  - exists [(CMunmap (addr (this st)) (mmap_len (this st)), r)],
      (CClose (fd (this st))), r0.
    repeat split; auto. cbn. intros _ H; discriminate H.
  - exists [], (CMunmap (addr (this st)) (mmap_len (this st))), r.
    repeat split; auto; try contradiction.
    intros _ _ e [<- | []]; reflexivity.
  - exists [(CClReleaseMemObject (buf_cl (this st)), r);
            (CMunmap (addr (this st)) (mmap_len (this st)), r0)],
      (CClose (fd (this st))), r1.
    repeat split; auto. cbn. intros _ H; discriminate H.
  - exists [(CClReleaseMemObject (buf_cl (this st)), r)],
      (CMunmap (addr (this st)) (mmap_len (this st))), r0.
    repeat split; auto; try contradiction.
    intros _ _ e [<- | [<- | []]]; reflexivity.
  - exists [], (CClReleaseMemObject (buf_cl (this st))), r.
    repeat split; auto; try contradiction.
    cbn. intros _ H; discriminate H.
Qed.

(** C5. [sync] with a valid direction always returns a status and never
    aborts: the kernel request is issued at least once and at most 101
    times, every time with the same descriptor and flags; every attempt
    but the last was interrupted by a signal; the value returned to the
    caller is the return value of the last attempt, which is the error
    value -1 when the attempts were exhausted on an interruption; the
    object is left as it was. *)
Theorem sync_returns_status (dir : Z) (st : proc) (w : W) :
  dir = VISIONBUF_SYNC_FROM_DEVICE \/ dir = VISIONBUF_SYNC_TO_DEVICE ->
  exists pre r,
    trace (run h (sync dir st) w)
      = pre ++ [(CIoctlSync (fd (this st)) (sync_flags dir), r)]
    /\ retried (CIoctlSync (fd (this st)) (sync_flags dir)) pre
    /\ (List.length pre <= 100)%nat
    /\ final (run h (sync dir st) w) = Returned (ret r, st)
    /\ (interrupted r = true -> List.length pre = 100%nat /\ ret r = -1).
Proof.
  intros Hdir. rewrite (sync_unfold dir st w Hdir). unfold HANDLE_EINTR.
  destruct (eintr_loop_run 100
              (sys (CIoctlSync (fd (this st)) (sync_flags dir)))
              (CIoctlSync (fd (this st)) (sync_flags dir))
              st eq_refl w)
    as (pre & r & w0 & Ht & Hf & Hr & Hl & Hi & _).
  exists pre, r. cbn [trace final]. rewrite Ht, Hf. cbn [fst snd].
  repeat split; auto.
  now apply interrupted_ret.
Qed.



Lemma eintr_loop_S (n : nat) (x : cmd answer) :
  eintr_loop (S n) x
  = (r <- x ;; if interrupted r then eintr_loop n x else pure r).
Proof. reflexivity. Qed.

Lemma ion_alloc_with_fd (length d : Z) (st : proc) :
  fh st = Some d ->
  (d <- ion_fd ;; sys (ion_alloc_request d length)) st
  = sys (ion_alloc_request d length) st.
Proof.
  intros E. unfold bind, ion_fd. rewrite E. reflexivity.
Qed.

(** The retry loop of [allocate], with the first use of [ion_fd] in its
    first round. *)
Lemma alloc_loop_run (length : Z) (st : proc) (w : W) :
  let R := run h (HANDLE_EINTR
                    (d <- ion_fd ;; sys (ion_alloc_request d length)) st) w in
  (fh st = None /\ exists ro,
      trace R = [(open_request, ro)] /\ ret ro < 0 /\ final R = Aborted)
  \/ (exists opens d pre r w0,
        opening st opens d
        /\ trace R = opens ++ pre ++ [(ion_alloc_request d length, r)]
        /\ retried (ion_alloc_request d length) pre
        /\ (List.length pre <= 100)%nat
        /\ (interrupted r = true -> List.length pre = 100%nat)
        /\ final R = Returned (r, mkProc (Some d) (this st))
        /\ h (ion_alloc_request d length) w0 = (r, world R)).
Proof.
  cbv zeta. unfold HANDLE_EINTR.
  destruct (fh st) as [d|] eqn:Efh.
  - right.
    destruct (eintr_loop_run 100 _ _ st (ion_alloc_with_fd length d st Efh) w)
      as (pre & r & w0 & Ht & Hf & Hr & Hl & Hi & Hh).
    exists [], d, pre, r, w0. cbn [app].
    replace (mkProc (Some d) (this st)) with st
      by (destruct st; cbn in *; now subst).
    repeat split; auto. left; auto.
  - remember (run h (eintr_loop 100 _ st) w) as R eqn:ER.
    change 100%nat with (S 99) in ER. rewrite eintr_loop_S in ER.
    unfold bind at 1 in ER. unfold bind at 1 in ER. unfold ion_fd at 1 in ER.
    rewrite Efh in ER. cbn [pbind run] in ER. fold open_request in ER.
    destruct (h open_request w) as [ro w1] eqn:Eo.
    destruct (0 <=? ret ro) eqn:Hro.
    + right. apply Z.leb_le in Hro.
      set (st1 := mkProc (Some (ret ro)) (this st)) in *.
      assert (Hop : opening st [(open_request, ro)] (ret ro)).
      { right. split; auto. exists ro. auto. }
      cbn [run pbind sys fst snd] in ER.
      destruct (h (ion_alloc_request (ret ro) length) w1) as [r w2] eqn:Er.
      destruct (interrupted r) eqn:Ei; cbn [run pbind pure] in ER.
      * destruct (eintr_loop_run 99 _ _ st1
                    (ion_alloc_with_fd length (ret ro) st1 eq_refl) w2)
          as (pre & r' & w0 & Ht & Hf & Hr & Hl & Hi & Hh).
        exists [(open_request, ro)], (ret ro),
          ((ion_alloc_request (ret ro) length, r) :: pre), r', w0.
        rewrite ER. cbn [trace final world].
        rewrite Ht, Hf. cbn [app List.length].
        repeat split; auto; try lia;
          try (constructor; now auto);
          try (intros Hr'; rewrite (Hi Hr'); reflexivity).
      * exists [(open_request, ro)], (ret ro), [], r, w1.
        rewrite ER. cbn [app List.length trace final world].
        repeat split; auto; try constructor; try lia. congruence.
    + left. apply Z.leb_gt in Hro. split; auto.
      exists ro. rewrite ER. cbn [run trace final]. auto.
Qed.

Lemma allocate_run (length : Z) (st : proc) (w : W) :
  alloc_run length st (trace (run h (allocate length st) w))
                      (final (run h (allocate length st) w))
                      (world (run h (allocate length st) w)).
Proof.
  unfold allocate. rewrite run_bind.
  destruct (alloc_loop_run length st w)
    as [(Efh & ro & Ht & Hro & Hf)
       |(opens & d & pre & r & w0 & Hop & Ht & Hr & Hl & Hi & Hf & Hh)];
    rewrite Hf, Ht; cbn [trace final world].
  - now apply AR_no_device.
  - fold (alloc_len length).
    run_step.
    destruct (ret r =? 0) eqn:Hret; run_step.
    + apply Z.eqb_eq in Hret.
      match goal with
      | |- context [h ?c ?w1] => destruct (h c w1) as [m w3] eqn:Em
      end.
      run_step.
      destruct (ret m =? MAP_FAILED) eqn:Hm; run_step.
      * apply Z.eqb_eq in Hm. rewrite <- !app_assoc. cbn [app].
        now apply AR_map_failed.
      * apply Z.eqb_neq in Hm.
        match goal with
        | |- context [h ?c ?w1] => destruct (h c w1) as [s w4] eqn:Es
        end.
        run_step. rewrite <- !app_assoc. cbn [app].
        eapply AR_done; eauto.
    + apply Z.eqb_neq in Hret. rewrite app_nil_r.
      now apply AR_denied.
Qed.

(** Where an entry of the first part of an [allocate] trace can sit. *)
Lemma alloc_trace_In (st : proc) (opens pre tl : list entry) (d length : Z)
      (c : call) (r : answer) :
  opening st opens d ->
  retried (ion_alloc_request d length) pre ->
  In (c, r) (opens ++ pre ++ tl) ->
  c = open_request
  \/ (c = ion_alloc_request d length /\ interrupted r = true)
  \/ In (c, r) tl.
Proof.
  intros Hop Hpre Hin.
  apply in_app_or in Hin. destruct Hin as [Hin | Hin].
  - left. destruct Hop as [[_ ->] | (_ & ro & -> & _)].
    + destruct Hin.
    + destruct Hin as [Hin | []]. now inversion Hin.
  - apply in_app_or in Hin. destruct Hin as [Hin | Hin]; auto.
    right; left. unfold retried in Hpre. rewrite Forall_forall in Hpre.
    destruct (Hpre _ Hin) as [Hc Hi]. cbn in Hc, Hi. auto.
Qed.

(** Every heap request of [allocate] is [ion_alloc_request]. *)
Lemma allocate_requests (length : Z) (st : proc) (w : W) (c : call) (r : answer) :
  In (c, r) (trace (run h (allocate length st) w)) ->
  is_ion_alloc c = true ->
  exists d, c = ion_alloc_request d length.
Proof.
  intros Hin Hc.
  destruct (allocate_run length st w)
    as [ro w' Hfh Hro
       |opens d pre r0 w' Hop Hpre Hl Hi Hr
       |opens d pre r0 m w' Hop Hpre Hl Hr Hm
       |opens d pre r0 m s0 w2 w3 w' Hop Hpre Hl Hr Hm Hh2 Hh3].
  - destruct Hin as [Hin | []]. inversion Hin; subst. discriminate Hc.
  - destruct (alloc_trace_In _ _ _ _ _ _ _ _ Hop Hpre Hin)
      as [-> | [[-> _] | Ht]]; try discriminate Hc; eauto.
    destruct Ht as [Ht | []]. inversion Ht; subst; eauto.
  - destruct (alloc_trace_In _ _ _ _ _ _ _ _ Hop Hpre Hin)
      as [-> | [[-> _] | Ht]]; try discriminate Hc; eauto.
    destruct Ht as [Ht | [Ht | []]]; inversion Ht; subst; eauto.
    discriminate Hc.
  - destruct (alloc_trace_In _ _ _ _ _ _ _ _ Hop Hpre Hin)
      as [-> | [[-> _] | Ht]]; try discriminate Hc; eauto.
    destruct Ht as [Ht | [Ht | [Ht | []]]]; inversion Ht; subst; eauto;
      discriminate Hc.
Qed.

(** What [allocate] has done when it returns. *)
Lemma allocate_returned (length : Z) (st : proc) (w : W) (u : unit) (st' : proc) :
  final (run h (allocate length st) w) = Returned (u, st') ->
  exists d r m s w2 w3 t,
    trace (run h (allocate length st) w)
      = t ++ [(ion_alloc_request d length, r);
              (mmap_request (alloc_len length) (out r), m);
              (CMemset (ret m) 0 (alloc_len length), s)]
    /\ ret r = 0 /\ ret m <> MAP_FAILED
    /\ h (mmap_request (alloc_len length) (out r)) w2 = (m, w3)
    /\ h (CMemset (ret m) 0 (alloc_len length)) w3
       = (s, world (run h (allocate length st) w))
    /\ st' = mkProc (Some d) (allocated st length r m).
Proof.
  intros Hf.
  destruct (allocate_run length st w)
    as [ro w' Hfh Hro
       |opens d pre r0 w' Hop Hpre Hl Hi Hr
       |opens d pre r0 m w' Hop Hpre Hl Hr Hm
       |opens d pre r0 m s0 w2 w3 w' Hop Hpre Hl Hr Hm Hh2 Hh3];
    try discriminate Hf.
  inversion Hf; subst.
  exists d, r0, m, s0, w2, w3, (opens ++ pre).
  rewrite <- app_assoc. repeat split; auto.
Qed.

(** C6. The fatal conditions abort the operation on the spot; none of the
    three operations has a status to return.
    - [allocate]: a heap request answered with a failure other than an
      interruption is the last call of the run, which aborts; so is a
      mapping answered with [MAP_FAILED]; and [allocate] returns only
      after a granted request and a successful mapping.
    - [import]: a negative descriptor aborts before any call is made; a
      mapping answered with [MAP_FAILED] is the last call and aborts.
    - [init_cl]: a misaligned [addr] aborts before any call is made; a
      registration the compute context rejects (a non-zero error code)
      is the only call of the run, which aborts. *)
Theorem fatal_faults_abort :
  (forall length st w c r,
      In (c, r) (trace (run h (allocate length st) w)) ->
      is_ion_alloc c = true -> ret r <> 0 -> interrupted r = false ->
      final (run h (allocate length st) w) = Aborted
      /\ exists t, trace (run h (allocate length st) w) = t ++ [(c, r)])
  /\ (forall length st w c m,
      In (c, m) (trace (run h (allocate length st) w)) ->
      is_mmap c = true -> ret m = MAP_FAILED ->
      final (run h (allocate length st) w) = Aborted
      /\ exists t, trace (run h (allocate length st) w) = t ++ [(c, m)])
  /\ (forall length st w x,
      final (run h (allocate length st) w) = Returned x ->
      exists c r c' m,
        In (c, r) (trace (run h (allocate length st) w))
        /\ is_ion_alloc c = true /\ ret r = 0
        /\ In (c', m) (trace (run h (allocate length st) w))
        /\ is_mmap c' = true /\ ret m <> MAP_FAILED)
  /\ (forall st w,
      fd (this st) < 0 ->
      final (run h (import st) w) = Aborted
      /\ trace (run h (import st) w) = [])
  /\ (forall st w c m,
      In (c, m) (trace (run h (import st) w)) ->
      is_mmap c = true -> ret m = MAP_FAILED ->
      final (run h (import st) w) = Aborted
      /\ exists t, trace (run h (import st) w) = t ++ [(c, m)])
  /\ (forall device_id ctx st w,
      addr (this st) mod DEVICE_PAGE_SIZE_CL <> 0 ->
      final (run h (init_cl device_id ctx st) w) = Aborted
      /\ trace (run h (init_cl device_id ctx st) w) = [])
  /\ (forall device_id ctx st w c r,
      In (c, r) (trace (run h (init_cl device_id ctx st) w)) ->
      out r <> 0 ->
      final (run h (init_cl device_id ctx st) w) = Aborted
      /\ trace (run h (init_cl device_id ctx st) w) = [(c, r)]).
Proof.
  repeat apply conj.
  - intros length st w c r Hin Hc Hr Hi.
    destruct (allocate_run length st w)
      as [ro w' Hfh Hro
         |opens d pre r0 w' Hop Hpre Hl Hi0 Hr0
         |opens d pre r0 m w' Hop Hpre Hl Hr0 Hm
         |opens d pre r0 m s0 w2 w3 w' Hop Hpre Hl Hr0 Hm Hh2 Hh3].
    + destruct Hin as [Hin | []]. inversion Hin; subst. discriminate Hc.
    + split; auto.
      destruct (alloc_trace_In _ _ _ _ _ _ _ _ Hop Hpre Hin)
        as [-> | [[_ Hi'] | Ht]]; try discriminate Hc; try congruence.
      destruct Ht as [Ht | []]. inversion Ht; subst.
      exists (opens ++ pre). now rewrite app_assoc.
    + destruct (alloc_trace_In _ _ _ _ _ _ _ _ Hop Hpre Hin)
        as [-> | [[_ Hi'] | Ht]]; try discriminate Hc; try congruence.
      destruct Ht as [Ht | [Ht | []]]; inversion Ht; subst;
        try contradiction; discriminate Hc.
    + destruct (alloc_trace_In _ _ _ _ _ _ _ _ Hop Hpre Hin)
        as [-> | [[_ Hi'] | Ht]]; try discriminate Hc; try congruence.
      destruct Ht as [Ht | [Ht | [Ht | []]]]; inversion Ht; subst;
        try contradiction; discriminate Hc.
  - intros length st w c m0 Hin Hc Hm0.
    destruct (allocate_run length st w)
      as [ro w' Hfh Hro
         |opens d pre r0 w' Hop Hpre Hl Hi0 Hr0
         |opens d pre r0 m w' Hop Hpre Hl Hr0 Hm
         |opens d pre r0 m s0 w2 w3 w' Hop Hpre Hl Hr0 Hm Hh2 Hh3].
    + destruct Hin as [Hin | []]. inversion Hin; subst. discriminate Hc.
    + destruct (alloc_trace_In _ _ _ _ _ _ _ _ Hop Hpre Hin)
        as [-> | [[-> _] | Ht]]; try discriminate Hc.
      destruct Ht as [Ht | []]. inversion Ht; subst. discriminate Hc.
    + split; auto.
      destruct (alloc_trace_In _ _ _ _ _ _ _ _ Hop Hpre Hin)
        as [-> | [[-> _] | Ht]]; try discriminate Hc.
      destruct Ht as [Ht | [Ht | []]]; inversion Ht; subst;
        try discriminate Hc.
      exists (opens ++ pre ++ [(ion_alloc_request d length, r0)]).
      now rewrite <- !app_assoc.
    + destruct (alloc_trace_In _ _ _ _ _ _ _ _ Hop Hpre Hin)
        as [-> | [[-> _] | Ht]]; try discriminate Hc.
      destruct Ht as [Ht | [Ht | [Ht | []]]]; inversion Ht; subst;
        try discriminate Hc; contradiction.
  - intros length st w [u st'] Hf.
    destruct (allocate_returned length st w u st' Hf)
      as (d & r & m & s0 & w2 & w3 & t & Ht & Hr & Hm & _).
    exists (ion_alloc_request d length), r,
      (mmap_request (alloc_len length) (out r)), m.
    rewrite Ht. repeat split; auto; apply in_or_app; right; cbn; auto.
  - intros st w Hfd. apply Z.leb_gt in Hfd.
    unfold import. run_step. rewrite Hfd. run_step. auto.
  - intros st w c m Hin Hc Hm.
    revert Hin. unfold import. run_cases; cbn [In]; intros Hin;
      try contradiction.
    + destruct Hin as [Hin | []]. inversion Hin; subst.
      split; auto. now exists [].
    + destruct Hin as [Hin | []]. inversion Hin; subst.
      apply Z.eqb_neq in Hb0. contradiction.
  - intros device_id ctx st w Ha. apply Z.eqb_neq in Ha.
    unfold init_cl. run_step. rewrite Ha. run_step. auto.
  - intros device_id ctx st w c r Hin Hr.
    revert Hin. unfold init_cl. run_cases; cbn [In]; intros Hin;
      try contradiction;
      destruct Hin as [Hin | []]; inversion Hin; subst; auto.
    apply Z.eqb_eq in Hb0. contradiction.
Qed.

Lemma to_size_t_small (z : Z) : 0 <= z < 2 ^ SIZE_WIDTH -> to_size_t z = z.
Proof. intros H. unfold to_size_t. now apply Z.mod_small. Qed.

(** What [import] has done when it returns. *)
Lemma import_returned (st : proc) (w : W) (u : unit) (st' : proc) :
  final (run h (import st) w) = Returned (u, st') ->
  exists m,
    h (mmap_request (mmap_len (this st)) (fd (this st))) w
      = (m, world (run h (import st) w))
    /\ trace (run h (import st) w)
       = [(mmap_request (mmap_len (this st)) (fd (this st)), m)]
    /\ 0 <= fd (this st) /\ ret m <> MAP_FAILED
    /\ st' = mkProc (fh st)
               (mkVisionBuf (len (this st)) (mmap_len (this st)) (ret m)
                  (to_size_t (ret m + len (this st) + PADDING_CL))
                  (fd (this st)) (buf_cl (this st))).
Proof.
  unfold import, mmap_request. run_cases; intros Hf; try discriminate Hf.
  inversion Hf; subst. inversion E; subst. exists r.
  apply Z.leb_le in Hb. apply Z.eqb_neq in Hb0.
  repeat split; auto.
Qed.

(** C7, as amended.  [allocate] asks the heap for
    [length + PADDING_CL + sizeof (uint64_t)] reduced to 64 bits, with
    the cached flag, and records that total in [mmap_len]; it is the
    plain sum whenever the sum fits in a [size_t].
    - Every heap request of a run is that request.
    - A run makes that request unless the heap device cannot be opened,
      in which case the failed open is its only call and it aborts.
    - When [allocate] returns, the trace holds that request answered
      with 0, asking for exactly the total recorded in [mmap_len], and
      [fd] is the descriptor that answer carried.
    After [allocate] and after [import], [frame_id] is
    [addr + len + PADDING_CL] reduced to 64 bits, which is the plain sum
    whenever that fits. *)
Theorem allocate_request_and_counter :
  (forall length st w c r,
      In (c, r) (trace (run h (allocate length st) w)) ->
      is_ion_alloc c = true ->
      exists d,
        c = CIoctlIonAlloc d
              (to_size_t (length + PADDING_CL + sizeof_uint64_t))
              (Z.shiftl 1 ION_SYSTEM_HEAP_ID) ION_FLAG_CACHED)
  /\ (forall length st w,
      (fh st = None
       /\ exists ro,
           ret ro < 0
           /\ trace (run h (allocate length st) w) = [(open_request, ro)]
           /\ final (run h (allocate length st) w) = Aborted)
      \/ (exists d r,
            In (CIoctlIonAlloc d
                  (to_size_t (length + PADDING_CL + sizeof_uint64_t))
                  (Z.shiftl 1 ION_SYSTEM_HEAP_ID) ION_FLAG_CACHED, r)
               (trace (run h (allocate length st) w))
            /\ (0 <= length ->
                length + PADDING_CL + sizeof_uint64_t < 2 ^ SIZE_WIDTH ->
                In (CIoctlIonAlloc d
                      (length + PADDING_CL + sizeof_uint64_t)
                      (Z.shiftl 1 ION_SYSTEM_HEAP_ID) ION_FLAG_CACHED, r)
                   (trace (run h (allocate length st) w)))))
  /\ (forall length st w u st',
      final (run h (allocate length st) w) = Returned (u, st') ->
      (exists d r t t',
          trace (run h (allocate length st) w)
            = t ++ (CIoctlIonAlloc d (mmap_len (this st'))
                      (Z.shiftl 1 ION_SYSTEM_HEAP_ID) ION_FLAG_CACHED, r) :: t'
          /\ ret r = 0
          /\ fd (this st') = out r)
      /\ len (this st') = length
      /\ mmap_len (this st')
         = to_size_t (length + PADDING_CL + sizeof_uint64_t)
      /\ frame_id (this st')
         = to_size_t (addr (this st') + len (this st') + PADDING_CL)
      /\ (0 <= length ->
          length + PADDING_CL + sizeof_uint64_t < 2 ^ SIZE_WIDTH ->
          mmap_len (this st') = length + PADDING_CL + sizeof_uint64_t)
      /\ (0 <= addr (this st') + len (this st') + PADDING_CL < 2 ^ SIZE_WIDTH ->
          frame_id (this st')
          = addr (this st') + len (this st') + PADDING_CL))
  /\ (forall st w u st',
      final (run h (import st) w) = Returned (u, st') ->
      frame_id (this st')
      = to_size_t (addr (this st') + len (this st') + PADDING_CL)
      /\ (0 <= addr (this st') + len (this st') + PADDING_CL < 2 ^ SIZE_WIDTH ->
          frame_id (this st')
          = addr (this st') + len (this st') + PADDING_CL)).
Proof.
  split; [|split; [|split]].
  - intros length st w c r Hin Hc.
    exact (allocate_requests length st w c r Hin Hc).
  - intros length st w.
    assert (Hplain : forall (d : Z) (r : answer) (t : list entry),
               In (ion_alloc_request d length, r) t ->
               In (ion_alloc_request d length, r) t
               /\ (0 <= length ->
                   length + PADDING_CL + sizeof_uint64_t < 2 ^ SIZE_WIDTH ->
                   In (CIoctlIonAlloc d
                         (length + PADDING_CL + sizeof_uint64_t)
                         (Z.shiftl 1 ION_SYSTEM_HEAP_ID) ION_FLAG_CACHED, r) t)).
    { intros d r t Hin. split; [exact Hin|]. intros H0 H1.
      unfold ion_alloc_request in Hin. rewrite to_size_t_small in Hin.
      - exact Hin.
      - unfold PADDING_CL, sizeof_uint64_t in *. lia. }
    destruct (allocate_run length st w)
      as [ro w' Hfh Hro
         |opens d pre r0 w' Hop Hpre Hl Hi Hr
         |opens d pre r0 m w' Hop Hpre Hl Hr Hm
         |opens d pre r0 m s0 w2 w3 w' Hop Hpre Hl Hr Hm Hh2 Hh3].
    + left. split; [exact Hfh|]. exists ro. auto.
    + right. exists d, r0. apply Hplain.
      apply in_or_app; right; apply in_or_app; right. left; reflexivity.
    + right. exists d, r0. apply Hplain.
      apply in_or_app; right; apply in_or_app; right. left; reflexivity.
    + right. exists d, r0. apply Hplain.
      apply in_or_app; right; apply in_or_app; right. left; reflexivity.
  - intros length st w u st' Hf.
    destruct (allocate_returned length st w u st' Hf)
      as (d & r & m & s0 & w2 & w3 & t & Ht & Hr & _ & _ & _ & ->).
    cbn [this allocated len mmap_len frame_id addr fd]. unfold alloc_len.
    split; [|split; [|split; [|split; [|split]]]]; auto.
    + exists d, r, t,
        [(mmap_request (alloc_len length) (out r), m);
         (CMemset (ret m) 0 (alloc_len length), s0)].
      split; [exact Ht|]. split; [exact Hr | reflexivity].
    + intros H0 H1. apply to_size_t_small.
      unfold PADDING_CL, sizeof_uint64_t in *. lia.
    + intros H0. now apply to_size_t_small.
  - intros st w u st' Hf.
    destruct (import_returned st w u st' Hf) as (m & _ & _ & _ & _ & ->).
    cbn [this len frame_id addr]. split; auto.
    intros H0. now apply to_size_t_small.
Qed.

(** C10. [import] takes no argument: the descriptor it maps and the
    length of the mapping are the [fd] and [mmap_len] fields of the
    object it is called on, and the offset of the counter comes from the
    [len] field.  When it returns it has made that one mapping call and
    written [addr] and [frame_id] only: [fd], [len], [mmap_len] and
    [buf_cl] are as they were, and so is the rest of the process. *)
Theorem import_reads_fields (st : proc) (w : W) (u : unit) (st' : proc) :
  final (run h (import st) w) = Returned (u, st') ->
  exists m,
    trace (run h (import st) w)
      = [(CMmap 0 (mmap_len (this st)) (Z.lor PROT_READ PROT_WRITE)
                MAP_SHARED (fd (this st)) 0, m)]
    /\ addr (this st') = ret m
    /\ frame_id (this st') = to_size_t (ret m + len (this st) + PADDING_CL)
    /\ fd (this st') = fd (this st)
    /\ len (this st') = len (this st)
    /\ mmap_len (this st') = mmap_len (this st)
    /\ buf_cl (this st') = buf_cl (this st)
    /\ fh st' = fh st.
Proof.
  intros Hf.
  destruct (import_returned st w u st' Hf) as (m & _ & Ht & _ & _ & ->).
  exists m. rewrite Ht. cbn. repeat split; reflexivity.
Qed.

Lemma heap_granted_app (t1 t2 : list entry) :
  heap_granted (t1 ++ t2) = heap_granted t1 || heap_granted t2.
Proof. apply existsb_app. Qed.

Lemma mapping_made_app (t1 t2 : list entry) :
  mapping_made (t1 ++ t2) = mapping_made t1 || mapping_made t2.
Proof. apply existsb_app. Qed.

Lemma opening_quiet (st : proc) (opens : list entry) (d : Z) :
  opening st opens d ->
  heap_granted opens = false /\ mapping_made opens = false.
Proof.
  intros [[_ ->] | (_ & ro & -> & _)]; split; reflexivity.
Qed.

Lemma retried_quiet (c : call) (pre : list entry) :
  retried c pre ->
  heap_granted pre = false /\ (is_mmap c = false -> mapping_made pre = false).
Proof.
  unfold retried, heap_granted, mapping_made. induction 1 as [|e pre [He Hi] _ [IH1 IH2]].
  - split; reflexivity.
  - cbn [existsb]. rewrite IH1. split.
    + rewrite (interrupted_ret _ Hi). cbn. now rewrite andb_false_r.
    + intros Hc. rewrite (IH2 Hc), He, Hc. reflexivity.
Qed.

(** [allocate] returns exactly when the heap granted a request and a
    mapping was made. *)
Lemma allocate_returns_iff (length : Z) (st : proc) (w : W) :
  heap_granted (trace (run h (allocate length st) w))
  && mapping_made (trace (run h (allocate length st) w)) = true
  <-> exists st', final (run h (allocate length st) w) = Returned (tt, st').
Proof.
  destruct (allocate_run length st w)
    as [ro w' Hfh Hro
       |opens d pre r0 w' Hop Hpre Hl Hi0 Hr0
       |opens d pre r0 m w' Hop Hpre Hl Hr0 Hm
       |opens d pre r0 m s0 w2 w3 w' Hop Hpre Hl Hr0 Hm Hh2 Hh3].
  - cbn. split; [discriminate | intros [? H]; discriminate H].
  - destruct (opening_quiet _ _ _ Hop) as [Ho _].
    destruct (retried_quiet _ _ Hpre) as [Hp _].
    rewrite !heap_granted_app, Ho, Hp.
    cbn. apply Z.eqb_neq in Hr0. rewrite Hr0. cbn.
    split; [discriminate | intros [? H]; discriminate H].
  - destruct (opening_quiet _ _ _ Hop) as [_ Ho].
    destruct (retried_quiet _ _ Hpre) as [_ Hp]. specialize (Hp eq_refl).
    rewrite !mapping_made_app, Ho, Hp.
    cbn [mapping_made existsb fst snd is_mmap ion_alloc_request mmap_request
         andb orb negb].
    rewrite Hm, Z.eqb_refl. cbn. rewrite andb_false_r.
    split; [discriminate | intros [? H]; discriminate H].
  - split; [eauto|]. intros _.
    rewrite !heap_granted_app, !mapping_made_app.
    cbn [mapping_made heap_granted existsb fst snd is_mmap is_ion_alloc
         ion_alloc_request mmap_request andb orb negb].
    rewrite Hr0. apply Z.eqb_neq in Hm. rewrite Hm. cbn.
    rewrite !orb_true_r. reflexivity.
Qed.

End Collaborator.

(** ** Running programs against the reference kernel *)

Section OnKernel.

Import Kernel.

Ltac run_cases := run_cases_with step.

Lemma store_vmas (k : state) (a c : Z) : k_vmas (store k a c) = k_vmas k.
Proof. unfold store. now destruct (find_vma a k). Qed.

Lemma find_vma_store (k : state) (a a' c : Z) :
  find_vma a (store k a' c) = find_vma a k.
Proof. unfold find_vma. now rewrite store_vmas. Qed.

Lemma load_store_same (k : state) (a c : Z) :
  find_vma a k <> None -> load (store k a c) a = Some c.
Proof.
  intros Hv. unfold load. rewrite find_vma_store.
  unfold store. destruct (find_vma a k) as [v|]; [|contradiction].
  cbn [k_cells]. now rewrite !Z.eqb_refl.
Qed.

Lemma load_store_keep (k : state) (a a' c : Z) :
  load k a = Some c -> load (store k a' c) a = Some c.
Proof.
  unfold load. rewrite find_vma_store.
  destruct (find_vma a k) as [v|]; [|discriminate].
  intros Hl. unfold store. destruct (find_vma a' k) as [v'|]; auto.
  cbn [k_cells].
  destruct ((vm_buf v =? vm_buf v') && (a - vm_start v =? a' - vm_start v'));
    auto.
Qed.

Lemma memset_bytes_vmas (n : nat) (s c : Z) (k : state) :
  k_vmas (memset_bytes n s c k) = k_vmas k.
Proof.
  revert s k. induction n as [|n IH]; intros s k; cbn [memset_bytes]; auto.
  now rewrite IH, store_vmas.
Qed.

Lemma memset_bytes_keep (n : nat) (s c a : Z) (k : state) :
  load k a = Some c -> load (memset_bytes n s c k) a = Some c.
Proof.
  revert s k. induction n as [|n IH]; intros s k Hl; cbn [memset_bytes]; auto.
  apply IH. now apply load_store_keep.
Qed.

(** [memset] fills: every mapped address of the range reads [c]
    afterwards. *)
Lemma memset_bytes_fill (n : nat) (s c a : Z) (k : state) :
  s <= a < s + Z.of_nat n ->
  find_vma a k <> None ->
  load (memset_bytes n s c k) a = Some c.
Proof.
  revert s k. induction n as [|n IH]; intros s k Ha Hv; [lia|].
  cbn [memset_bytes].
  destruct (Z.eq_dec a s) as [->|Hne].
  - apply memset_bytes_keep. now apply load_store_same.
  - apply IH; [lia|]. now rewrite find_vma_store.
Qed.

Lemma choose_frame (k : state) :
  k_files (snd (choose k)) = k_files k
  /\ k_next_buf (snd (choose k)) = k_next_buf k
  /\ k_cells (snd (choose k)) = k_cells k
  /\ k_vmas (snd (choose k)) = k_vmas k
  /\ k_mems (snd (choose k)) = k_mems k.
Proof. unfold choose. destruct (k_script k); cbn; auto. Qed.

(** The mapper never touches the contents of a buffer, the descriptor
    table or the set of buffers. *)
Lemma mmap_frame (hint l prot flags d off : Z) (k : state) :
  let k' := snd (step (CMmap hint l prot flags d off) k) in
  k_cells k' = k_cells k /\ k_files k' = k_files k
  /\ k_next_buf k' = k_next_buf k.
Proof.
  cbv zeta. unfold step.
  destruct (lookup_fd d k) as [[| |id]|]; cbn [snd]; auto.
  destruct (choose_frame k) as (Hf & Hn & Hc & _).
  destruct (choose k) as [p k1]. cbn [snd] in *.
  destruct ((off =? 0) && placeable p l k1); cbn [snd k_cells k_files k_next_buf];
    auto.
Qed.

(** A mapping that succeeded: the descriptor names a dma-buf, the
    address is not null, the range lies below [2 ^ 64], and the new
    mapping is the first one looked at. *)
Lemma mmap_success (hint l prot flags d off : Z) (k k' : state) (m : answer) :
  step (CMmap hint l prot flags d off) k = (m, k') ->
  ret m <> MAP_FAILED ->
  exists id,
    lookup_fd d k = Some (FDmaBuf id)
    /\ 0 < ret m /\ 0 < l /\ ret m + l < 2 ^ SIZE_WIDTH
    /\ k_vmas k' = mkVma (ret m) l id :: k_vmas k
    /\ k_cells k' = k_cells k.
Proof.
  unfold step.
  destruct (lookup_fd d k) as [[| |id]|];
    try (intros H Hm; inversion H; subst; exfalso; apply Hm; reflexivity).
  destruct (choose_frame k) as (_ & _ & Hc & Hv & _).
  destruct (choose k) as [p k1]. cbn [snd] in *.
  destruct ((off =? 0) && placeable p l k1) eqn:Hp;
    intros H Hm; inversion H; subst;
    [|exfalso; apply Hm; reflexivity].
  exists id. cbn [k_vmas k_cells ret].
  apply andb_true_iff in Hp. destruct Hp as [_ Hp]. unfold placeable in Hp.
  repeat (apply andb_true_iff in Hp; destruct Hp as [Hp ?]).
  repeat split; auto; try lia; congruence.
Qed.

Lemma find_vma_head (k : state) (p l id i : Z) (vs : list vma) :
  k_vmas k = mkVma p l id :: vs ->
  0 <= i < l ->
  find_vma (p + i) k = Some (mkVma p l id).
Proof.
  intros Hv Hi. unfold find_vma. rewrite Hv. cbn [find].
  unfold covers. cbn [vm_start vm_len].
  replace (p <=? p + i) with true by (symmetry; apply Z.leb_le; lia).
  replace (p + i <? p + l) with true by (symmetry; apply Z.ltb_lt; lia).
  reflexivity.
Qed.

(** [allocate] on the reference kernel, for a length whose total fits in
    a [size_t]. *)
Lemma allocate_on_kernel (length : Z) (st : proc) (k : state) (u : unit)
      (st' : proc) :
  0 <= length ->
  length + PADDING_CL + sizeof_uint64_t < 2 ^ SIZE_WIDTH ->
  final (run step (allocate length st) k) = Returned (u, st') ->
  len (this st') = length
  /\ mmap_len (this st') = length + PADDING_CL + sizeof_uint64_t
  /\ addr (this st') <> 0
  /\ frame_id (this st') = addr (this st') + length + PADDING_CL
  /\ forall i, 0 <= i < mmap_len (this st') ->
       load (world (run step (allocate length st) k)) (addr (this st') + i)
       = Some 0.
Proof.
  intros H0 Hfit Hf.
  destruct (allocate_returned _ step length st k u st' Hf)
    as (d & r & m & s0 & k2 & k3 & t & _ & _ & Hm & Hmap & Hset & ->).
  assert (Hlen : alloc_len length = length + PADDING_CL + sizeof_uint64_t).
  { apply to_size_t_small. unfold PADDING_CL, sizeof_uint64_t in *. lia. }
  unfold mmap_request in Hmap.
  destruct (mmap_success _ _ _ _ _ _ _ _ _ Hmap Hm)
    as (id & _ & Hpos & Hl & Hhi & Hv & _).
  cbn [this allocated len mmap_len addr frame_id].
  rewrite Hlen in *.
  repeat split; auto; try lia.
  - apply to_size_t_small. unfold PADDING_CL, sizeof_uint64_t in *. lia.
  - intros i Hi. cbn [step] in Hset. inversion Hset as [[Hs Hw]].
    apply memset_bytes_fill.
    + rewrite Z2Nat.id by lia. lia.
    + rewrite (find_vma_head k3 _ _ _ _ _ Hv) by lia. discriminate.
Qed.

(** C1, as amended.  For a length above 0 whose total with the padding
    and the counter fits in a [size_t], [allocate] returns exactly when
    the heap granted a request and the mapping was made; it then leaves
    [len] at the requested length, [mmap_len] at the total (so not below
    [len]), a non-null [addr], and every byte of the mapped region, from
    [addr] to [addr + mmap_len], reads zero. *)
Theorem allocate_zero_filled (length : Z) (st : proc) (k : state) :
  0 < length ->
  length + PADDING_CL + sizeof_uint64_t < 2 ^ SIZE_WIDTH ->
  (heap_granted (trace (run step (allocate length st) k))
   && mapping_made (trace (run step (allocate length st) k)) = true
   <-> exists st', final (run step (allocate length st) k) = Returned (tt, st'))
  /\ forall st',
      final (run step (allocate length st) k) = Returned (tt, st') ->
      len (this st') = length
      /\ mmap_len (this st') = length + PADDING_CL + sizeof_uint64_t
      /\ mmap_len (this st') >= len (this st')
      /\ addr (this st') <> 0
      /\ forall i, 0 <= i < mmap_len (this st') ->
           load (world (run step (allocate length st) k)) (addr (this st') + i)
           = Some 0.
Proof.
  intros Hpos Hfit. split.
  - apply allocate_returns_iff.
  - intros st' Hf.
    destruct (allocate_on_kernel length st k tt st') as (Hl & Hm & Ha & _ & Hz);
      auto; try lia.
    split; [|split; [|split; [|split]]]; auto.
    rewrite Hl, Hm. unfold PADDING_CL, sizeof_uint64_t. lia.
Qed.

(** C9.  [allocate 0] is not refused: it returns exactly when the heap
    granted a request and the mapping was made, like any other length.
    The buffer it leaves has an empty usable region ([len] is 0), a
    mapped region of the padding plus one counter, and a [frame_id] that
    points at the start of the region behind the padding, where the
    eight bytes of the counter are mapped and read zero. *)
Theorem allocate_empty_buffer (st : proc) (k : state) :
  (heap_granted (trace (run step (allocate 0 st) k))
   && mapping_made (trace (run step (allocate 0 st) k)) = true
   <-> exists st', final (run step (allocate 0 st) k) = Returned (tt, st'))
  /\ forall st',
      final (run step (allocate 0 st) k) = Returned (tt, st') ->
      len (this st') = 0
      /\ mmap_len (this st') = PADDING_CL + sizeof_uint64_t
      /\ addr (this st') <> 0
      /\ frame_id (this st') = addr (this st') + PADDING_CL
      /\ forall j, 0 <= j < sizeof_uint64_t ->
           load (world (run step (allocate 0 st) k)) (frame_id (this st') + j)
           = Some 0.
Proof.
  split.
  - apply allocate_returns_iff.
  - intros st' Hf.
    destruct (allocate_on_kernel 0 st k tt st') as (Hl & Hm & Ha & Hfr & Hz);
      auto; try reflexivity; try lia.
    split; [|split; [|split; [|split]]]; auto;
      try (rewrite ?Hfr, ?Hm; unfold PADDING_CL, sizeof_uint64_t; lia).
    intros j Hj. rewrite Hfr.
    replace (addr (this st') + 0 + PADDING_CL + j)
      with (addr (this st') + (PADDING_CL + j)) by lia.
    apply Hz. rewrite Hm. unfold PADDING_CL, sizeof_uint64_t in *. lia.
Qed.

(** C8.  [import] makes no call but the mapping of the descriptor it
    was given, read/write and shared, over [mmap_len] bytes: no [memset]
    and no heap request.  Whatever the outcome, the contents of every
    buffer, the set of buffers and the descriptor table are what they
    were.  When [import] returns, [frame_id] has been computed from the
    new [addr], and byte [i] of the region is read at [addr + i] with the
    value the buffer held before the call. *)
Theorem import_maps_without_writing (st : proc) (k : state) :
  k_cells (world (run step (import st) k)) = k_cells k
  /\ k_next_buf (world (run step (import st) k)) = k_next_buf k
  /\ k_files (world (run step (import st) k)) = k_files k
  /\ (forall e, In e (trace (run step (import st) k)) ->
        fst e = CMmap 0 (mmap_len (this st)) (Z.lor PROT_READ PROT_WRITE)
                      MAP_SHARED (fd (this st)) 0)
  /\ (forall u st',
        final (run step (import st) k) = Returned (u, st') ->
        frame_id (this st')
        = to_size_t (addr (this st') + len (this st') + PADDING_CL)
        /\ exists id,
            lookup_fd (fd (this st)) k = Some (FDmaBuf id)
            /\ forall i, 0 <= i < mmap_len (this st) ->
                 load (world (run step (import st) k)) (addr (this st') + i)
                 = Some (k_cells k id i)).
Proof.
  assert (Hw : world (run step (import st) k) = k
               \/ world (run step (import st) k)
                  = snd (step (CMmap 0 (mmap_len (this st))
                                 (Z.lor PROT_READ PROT_WRITE) MAP_SHARED
                                 (fd (this st)) 0) k)).
  { unfold import. run_cases; auto; inversion E; auto. }
  assert (Hfr := mmap_frame 0 (mmap_len (this st)) (Z.lor PROT_READ PROT_WRITE)
                   MAP_SHARED (fd (this st)) 0 k).
  cbv zeta in Hfr. destruct Hfr as (Hc & Hf & Hn).
  repeat apply conj.
  - destruct Hw as [-> | ->]; auto.
  - destruct Hw as [-> | ->]; auto.
  - destruct Hw as [-> | ->]; auto.
  - unfold import. run_cases; intros e He; cbn [In] in He;
      try contradiction; destruct He as [<- | []]; reflexivity.
  - intros u st' Hret.
    destruct (import_returned _ step st k u st' Hret)
      as (m & Hmap & _ & _ & Hm & ->).
    cbn [this frame_id addr len]. split; auto.
    unfold mmap_request in Hmap.
    destruct (mmap_success _ _ _ _ _ _ _ _ _ Hmap Hm)
      as (id & Hfd & _ & _ & _ & Hv & Hcells).
    exists id. split; auto. intros i Hi.
    unfold load. rewrite (find_vma_head _ _ _ _ _ _ Hv Hi).
    cbn [vm_buf vm_start]. rewrite Hcells. do 2 f_equal. lia.
Qed.

End OnKernel.

(** ** Further properties, for an arbitrary collaborator *)

Definition is_open (c : call) : bool :=
  match c with COpen _ _ => true | _ => false end.

Section MoreCollaborator.

Variables (W : Type) (h : handler W).

Ltac run_cases := run_cases_with h.

(** What follows the opening in a run of [allocate]: no further [open],
    and heap requests on the one descriptor [ion_fd] gave. *)
Lemma alloc_run_device (length : Z) (st : proc) (t : list entry)
      (o : outcome (unit * proc)) (w' : W) :
  alloc_run W h length st t o w' ->
  (fh st = None /\ exists ro,
      t = [(open_request, ro)] /\ ret ro < 0 /\ o = Aborted)
  \/ exists opens d rest,
      opening st opens d /\ t = opens ++ rest
      /\ Forall (fun e => is_open (fst e) = false
                          /\ (is_ion_alloc (fst e) = true ->
                              fst e = ion_alloc_request d length)) rest
      /\ (forall u st', o = Returned (u, st') -> fh st' = Some d).
Proof.
  assert (Hpre : forall d pre,
             retried (ion_alloc_request d length) pre ->
             Forall (fun e => is_open (fst e) = false
                              /\ (is_ion_alloc (fst e) = true ->
                                  fst e = ion_alloc_request d length)) pre).
  { intros d pre Hr. unfold retried in Hr.
    eapply Forall_impl; [|exact Hr].
    intros e [He _]. rewrite He. split; auto. }
  intros H.
  destruct H as [ro w' Hfh Hro
                |opens d pre r0 w' Hop Hr Hl Hi0 Hr0
                |opens d pre r0 m w' Hop Hr Hl Hr0 Hm
                |opens d pre r0 m s0 w2 w3 w' Hop Hr Hl Hr0 Hm Hh2 Hh3].
  - left. split; auto. exists ro. auto.
  - right. exists opens, d, (pre ++ [(ion_alloc_request d length, r0)]).
    repeat split; auto; try discriminate.
    apply Forall_app. split; [now apply Hpre|].
    repeat constructor; auto.
  - right. exists opens, d,
      (pre ++ [(ion_alloc_request d length, r0);
               (mmap_request (alloc_len length) (out r0), m)]).
    repeat split; auto; try discriminate.
    apply Forall_app. split; [now apply Hpre|].
    repeat constructor; auto; cbn; discriminate.
  - right. exists opens, d,
      (pre ++ [(ion_alloc_request d length, r0);
               (mmap_request (alloc_len length) (out r0), m);
               (CMemset (ret m) 0 (alloc_len length), s0)]).
    repeat split; auto.
    + apply Forall_app. split; [now apply Hpre|].
      repeat constructor; auto; cbn; discriminate.
    + intros u st' E. inversion E. reflexivity.
Qed.

(** X1.  [ion_fd] opens the device at most once.  When the static is
    already constructed, [allocate] makes no [open] call and sends every
    heap request through the descriptor it holds.  When it is not, the
    first call of [allocate] is the one [open] of the run; a negative
    answer aborts before any heap request, otherwise every heap request
    goes through the descriptor just opened.  When [allocate] returns,
    the static holds the descriptor the requests went through, so the
    next [allocate] is in the first case. *)
Theorem allocate_opens_device_once (length : Z) (st : proc) (w : W) :
  (forall d, fh st = Some d ->
     forall e, In e (trace (run h (allocate length st) w)) ->
       is_open (fst e) = false
       /\ (is_ion_alloc (fst e) = true -> fst e = ion_alloc_request d length))
  /\ (fh st = None ->
      exists ro t,
        trace (run h (allocate length st) w) = (open_request, ro) :: t
        /\ (ret ro < 0 -> t = [] /\ final (run h (allocate length st) w) = Aborted)
        /\ forall e, In e t ->
             is_open (fst e) = false
             /\ (is_ion_alloc (fst e) = true ->
                 fst e = ion_alloc_request (ret ro) length))
  /\ (forall u st',
        final (run h (allocate length st) w) = Returned (u, st') ->
        exists d,
          fh st' = Some d
          /\ (forall d0, fh st = Some d0 -> d0 = d)
          /\ forall e, In e (trace (run h (allocate length st) w)) ->
               is_ion_alloc (fst e) = true ->
               fst e = ion_alloc_request d length).
Proof.
  pose proof (alloc_run_device _ _ _ _ _ (allocate_run W h length st w)) as H.
  repeat apply conj.
  - intros d Hfh e He.
    destruct H as [(Hn & _) | (opens & d' & rest & Hop & Ht & Hall & _)];
      [congruence|].
    destruct Hop as [[Hs ->] | (Hn & _)]; [|congruence].
    rewrite Ht in He. cbn [app] in He.
    rewrite Forall_forall in Hall.
    assert (d' = d) by congruence. subst d'. now apply Hall.
  - intros Hfh.
    destruct H as [(_ & ro & Ht & Hro & Hf)
                  | (opens & d & rest & Hop & Ht & Hall & _)].
    + exists ro, []. rewrite Ht. split; [reflexivity|]. split; [auto|].
      intros e [].
    + destruct Hop as [[Hs _] | (_ & ro & -> & Hro & ->)]; [congruence|].
      exists ro, rest. rewrite Ht. split; [reflexivity|]. split; [lia|].
      rewrite Forall_forall in Hall. exact Hall.
  - intros u st' Hf.
    destruct H as [(_ & ro & _ & _ & Ha)
                  | (opens & d & rest & Hop & Ht & Hall & Hfh)];
      [congruence|].
    exists d. split; [now apply (Hfh u)|]. split.
    + intros d0 Hd0.
      destruct Hop as [[Hs _] | (Hn & _)]; congruence.
    + intros e He Hc. rewrite Ht in He. apply in_app_or in He.
      rewrite Forall_forall in Hall.
      destruct He as [He | He]; [|now apply Hall].
      destruct Hop as [[_ ->] | (_ & ro & -> & _)]; [destruct He|].
      destruct He as [<- | []]. discriminate Hc.
Qed.

Lemma sync_flags_bits (dir : Z) :
  Z.land (sync_flags dir) DMA_BUF_SYNC_RW = DMA_BUF_SYNC_RW
  /\ (dir = VISIONBUF_SYNC_FROM_DEVICE ->
      sync_flags dir = Z.lor DMA_BUF_SYNC_START DMA_BUF_SYNC_RW)
  /\ (dir <> VISIONBUF_SYNC_FROM_DEVICE ->
      sync_flags dir = Z.lor DMA_BUF_SYNC_END DMA_BUF_SYNC_RW).
Proof.
  unfold sync_flags.
  destruct (dir =? VISIONBUF_SYNC_FROM_DEVICE) eqn:E.
  - apply Z.eqb_eq in E. repeat split; auto. intros; contradiction.
  - apply Z.eqb_neq in E. repeat split; auto. intros; contradiction.
Qed.

(** The calls of [sync]: none for a direction that is neither of the
    two, the one request for a valid one. *)
Lemma sync_calls (dir : Z) (st : proc) (w : W) :
  Forall (fun e => fst e = CIoctlSync (fd (this st)) (sync_flags dir))
         (trace (run h (sync dir st) w)).
Proof.
  destruct ((dir =? VISIONBUF_SYNC_FROM_DEVICE)
            || (dir =? VISIONBUF_SYNC_TO_DEVICE)) eqn:Hb.
  - assert (Hd : dir = VISIONBUF_SYNC_FROM_DEVICE
                 \/ dir = VISIONBUF_SYNC_TO_DEVICE).
    { apply orb_true_iff in Hb. destruct Hb as [Hb | Hb];
        apply Z.eqb_eq in Hb; auto. }
    rewrite (sync_unfold W h dir st w Hd). cbn [trace].
    unfold HANDLE_EINTR.
    destruct (eintr_loop_run W h 100
                (sys (CIoctlSync (fd (this st)) (sync_flags dir)))
                (CIoctlSync (fd (this st)) (sync_flags dir))
                st eq_refl w)
      as (pre & r & w0 & Ht & _ & Hr & _).
    rewrite Ht. apply Forall_app. split.
    + eapply Forall_impl; [|exact Hr]. intros e [He _]. exact He.
    + repeat constructor.
  - unfold sync. rewrite Hb. run_step. constructor.
Qed.

(** X2.  The direction decides what [sync] asks of the kernel.  A
    direction that is neither of the two aborts before any call.  For a
    valid one every request is the sync ioctl on the descriptor of the
    object, always with both the read and the write bit, with the start
    flag for FROM_DEVICE and the end flag otherwise. *)
Theorem sync_direction (dir : Z) (st : proc) (w : W) :
  (dir <> VISIONBUF_SYNC_FROM_DEVICE -> dir <> VISIONBUF_SYNC_TO_DEVICE ->
   trace (run h (sync dir st) w) = []
   /\ final (run h (sync dir st) w) = Aborted
   /\ world (run h (sync dir st) w) = w)
  /\ (forall e, In e (trace (run h (sync dir st) w)) ->
      exists flags,
        fst e = CIoctlSync (fd (this st)) flags
        /\ Z.land flags DMA_BUF_SYNC_RW = DMA_BUF_SYNC_RW
        /\ (dir = VISIONBUF_SYNC_FROM_DEVICE ->
            flags = Z.lor DMA_BUF_SYNC_START DMA_BUF_SYNC_RW)
        /\ (dir <> VISIONBUF_SYNC_FROM_DEVICE ->
            flags = Z.lor DMA_BUF_SYNC_END DMA_BUF_SYNC_RW)).
Proof.
  split.
  - intros H1 H2. apply Z.eqb_neq in H1, H2.
    unfold sync. rewrite H1, H2. run_step. auto.
  - intros e He.
    pose proof (sync_calls dir st w) as Hc. rewrite Forall_forall in Hc.
    exists (sync_flags dir). split; [now apply Hc|].
    apply sync_flags_bits.
Qed.

(** X3.  What [init_cl] registers.  With an aligned [addr] it makes one
    call, [clCreateBuffer] in the given context, for [len] bytes (the
    usable length, not the mapped one), on the descriptor and the address
    of the object, with the flags and the descriptor type of an ION host
    pointer; the device argument plays no part.  When the runtime
    reports no error the handle it returned is stored in [buf_cl] and no
    other field changes; otherwise [init_cl] aborts. *)
Theorem init_cl_registers (device_id ctx : Z) (st : proc) (w : W) :
  addr (this st) mod DEVICE_PAGE_SIZE_CL = 0 ->
  exists r,
    trace (run h (init_cl device_id ctx st) w)
    = [(CClCreateBuffer ctx
          (Z.lor CL_MEM_USE_HOST_PTR CL_MEM_EXT_HOST_PTR_QCOM)
          (len (this st)) CL_MEM_ION_HOST_PTR_QCOM CL_MEM_HOST_UNCACHED_QCOM
          (fd (this st)) (addr (this st)), r)]
    /\ (out r = 0 ->
        final (run h (init_cl device_id ctx st) w)
        = Returned (tt, mkProc (fh st)
                          (mkVisionBuf (len (this st)) (mmap_len (this st))
                             (addr (this st)) (frame_id (this st))
                             (fd (this st)) (ret r))))
    /\ (out r <> 0 -> final (run h (init_cl device_id ctx st) w) = Aborted).
Proof.
  intros Ha. apply Z.eqb_eq in Ha.
  unfold init_cl. run_step. rewrite Ha. run_cases; eqb_hyps;
    eexists; (split; [reflexivity|]); split; intros Ho;
    try contradiction; reflexivity.
Qed.

(** A property of the collaborator's state that every call of a run
    keeps is kept by the run. *)
Lemma run_invariant (A : Type) (I : W -> Prop) (ok : call -> bool) :
  (forall c w, ok c = true -> I w -> I (snd (h c w))) ->
  forall (p : prog A) (w : W),
    I w ->
    Forall (fun e => ok (fst e) = true) (trace (run h p w)) ->
    I (world (run h p w)).
Proof.
  intros Hstep p. induction p as [a| |c k IH]; intros w Hw Hall;
    cbn [run] in *; auto.
  destruct (h c w) as [r w1] eqn:E. cbn [trace world] in *.
  inversion Hall as [|e t Hc Ht]; subst. cbn [fst] in Hc.
  apply IH; auto.
  specialize (Hstep c w Hc Hw). now rewrite E in Hstep.
Qed.

End MoreCollaborator.

(** ** Further properties, on the reference kernel *)

Section MoreOnKernel.

Import Kernel.

Ltac run_cases := run_cases_with step.

(** The object holds a live buffer: its address is page-aligned, its
    mapped length is positive, its descriptor names a dma-buf, every
    address of its region is mapped, by a mapping of that dma-buf that
    starts at [addr], and the memory object it holds, if any, is live. *)
Definition live (b : VisionBuf) (k : state) : Prop :=
  addr b mod DEVICE_PAGE_SIZE_CL = 0
  /\ 0 < mmap_len b
  /\ (exists id,
        lookup_fd (fd b) k = Some (FDmaBuf id)
        /\ forall i, 0 <= i < mmap_len b ->
             exists v, find_vma (addr b + i) k = Some v
                       /\ vm_buf v = id /\ vm_start v = addr b)
  /\ (buf_cl b <> 0 -> existsb (Z.eqb (buf_cl b)) (k_mems k) = true).

(** Two kernel states with the same buffers, mappings, descriptors and
    memory objects: they differ in the script at most. *)
Definition same_memory (k k' : state) : Prop :=
  k_cells k' = k_cells k /\ k_vmas k' = k_vmas k
  /\ k_files k' = k_files k /\ k_mems k' = k_mems k.


Lemma same_memory_choose (k : state) : same_memory k (snd (choose k)).
Proof.
  destruct (choose_frame k) as (Hf & _ & Hc & Hv & Hm). repeat split; auto.
Qed.


Lemma lookup_fd_same (k k' : state) (d : Z) :
  k_files k' = k_files k -> lookup_fd d k' = lookup_fd d k.
Proof. intros Hf. unfold lookup_fd. now rewrite Hf. Qed.

Lemma find_vma_same (k k' : state) (a : Z) :
  k_vmas k' = k_vmas k -> find_vma a k' = find_vma a k.
Proof. intros Hv. unfold find_vma. now rewrite Hv. Qed.

Lemma live_same (b : VisionBuf) (k k' : state) :
  same_memory k k' -> live b k -> live b k'.
Proof.
  intros (Hc & Hv & Hf & Hm) (Ha & Hl & (id & Hfd & Hmap) & Hcl).
  repeat split; auto.
  - exists id. split.
    + now rewrite (lookup_fd_same k k' _ Hf).
    + intros i Hi. rewrite (find_vma_same k k' _ Hv). now apply Hmap.
  - intros Hb. rewrite Hm. now apply Hcl.
Qed.




Lemma fresh_mem_pos (mems : list Z) : 0 < fresh_mem mems.
Proof.
  unfold fresh_mem.
  assert (0 <= fold_right Z.max 0 mems).
  { induction mems as [|m mems IH]; cbn [fold_right]; lia. }
  lia.
Qed.

(** The registration call on the reference kernel. *)
Lemma create_step (ctx flags size ty policy d hostptr : Z) (k : state) :
  (fst (choose k) <> 0 ->
   out (fst (step (CClCreateBuffer ctx flags size ty policy d hostptr) k)) <> 0)
  /\ (fst (choose k) = 0 ->
      (exists id, lookup_fd d k = Some (FDmaBuf id)) ->
      find_vma hostptr k <> None ->
      let r := fst (step (CClCreateBuffer ctx flags size ty policy d hostptr) k) in
      let k' := snd (step (CClCreateBuffer ctx flags size ty policy d hostptr) k) in
      out r = 0 /\ ret r = fresh_mem (k_mems k)
      /\ k_mems k' = ret r :: k_mems k
      /\ k_cells k' = k_cells k /\ k_vmas k' = k_vmas k
      /\ k_files k' = k_files k).
Proof.
  unfold step.
  destruct (same_memory_choose k) as (Hc1 & Hv1 & Hf1 & Hm1).
  destruct (choose k) as [e k1]. cbn [fst snd] in *.
  split.
  - intros He. apply Z.eqb_neq in He. rewrite He. cbn. now apply Z.eqb_neq.
  - intros -> (id & Hfd) Hv. cbn [Z.eqb negb].
    rewrite (lookup_fd_same k k1 _ Hf1), Hfd.
    rewrite (find_vma_same k k1 _ Hv1).
    destruct (find_vma hostptr k) as [v|]; [|contradiction].
    cbn. rewrite Hm1. repeat split; auto.
Qed.

(** X5.  [init_cl] on a live buffer never trips on the alignment: it
    reaches the runtime.  When the runtime accepts, [init_cl] returns
    with a non-null [buf_cl], the other fields as they were, the buffer
    still live and no byte of any buffer changed; when it refuses,
    [init_cl] aborts. *)
Theorem init_cl_on_live (device_id ctx : Z) (st : proc) (k : state) :
  live (this st) k ->
  (fst (choose k) = 0 ->
   exists m,
     final (run step (init_cl device_id ctx st) k)
     = Returned (tt, mkProc (fh st) (set_buf_cl m (this st)))
     /\ m <> 0
     /\ live (set_buf_cl m (this st)) (world (run step (init_cl device_id ctx st) k))
     /\ k_cells (world (run step (init_cl device_id ctx st) k)) = k_cells k)
  /\ (fst (choose k) <> 0 ->
      final (run step (init_cl device_id ctx st) k) = Aborted).
Proof.
  intros (Ha & Hl & (id & Hfd & Hmap) & Hcl).
  assert (Hv : find_vma (addr (this st)) k <> None).
  { destruct (Hmap 0) as (v & Hv & _); [lia|].
    rewrite Z.add_0_r in Hv. rewrite Hv. discriminate. }
  destruct (create_step ctx (Z.lor CL_MEM_USE_HOST_PTR CL_MEM_EXT_HOST_PTR_QCOM)
              (len (this st)) CL_MEM_ION_HOST_PTR_QCOM CL_MEM_HOST_UNCACHED_QCOM
              (fd (this st)) (addr (this st)) k) as [Hno Hyes].
  apply Z.eqb_eq in Ha.
  unfold init_cl. run_step. rewrite Ha. run_step.
  destruct (step (CClCreateBuffer _ _ _ _ _ _ _) k) as [r k'].
  cbn [fst snd] in *. run_step.
  split.
  - intros Hch.
    destruct (Hyes Hch (ex_intro _ id Hfd) Hv)
      as (Ho & Hr & Hm & Hc & Hvm & Hf).
    rewrite Ho. cbn [Z.eqb]. run_step. exists (ret r).
    split; [reflexivity|]. split.
    { rewrite Hr. pose proof (fresh_mem_pos (k_mems k)). lia. }
    split; [|exact Hc].
    apply Z.eqb_eq in Ha.
    repeat split; cbn [set_buf_cl addr mmap_len fd buf_cl]; auto.
    + exists id. split.
      * now rewrite (lookup_fd_same k k' _ Hf).
      * intros i Hi. rewrite (find_vma_same k k' _ Hvm). now apply Hmap.
    + intros _. rewrite Hm. cbn [existsb]. now rewrite Z.eqb_refl.
  - intros Hch. specialize (Hno Hch). apply Z.eqb_neq in Hno.
    rewrite Hno. run_step. reflexivity.
Qed.

Lemma choose_script (k : state) :
  fst (choose k) = hd 0 (k_script k)
  /\ k_script (snd (choose k)) = tl (k_script k).
Proof. unfold choose. destruct (k_script k) eqn:E; cbn; auto. Qed.

Lemma firstn_zero (s : list Z) :
  Forall (fun d => d = 0) (firstn 3 s) ->
  hd 0 s = 0 /\ hd 0 (tl s) = 0 /\ hd 0 (tl (tl s)) = 0.
Proof.
  destruct s as [|a [|b [|c s]]]; cbn; intros H; auto.
  - inversion H; subst. auto.
  - inversion H as [|? ? Ha H1]; subst. inversion H1; subst. auto.
  - inversion H as [|? ? Ha H1]; subst. inversion H1 as [|? ? Hb H2]; subst.
    inversion H2; subst. auto.
Qed.

Lemma find_filter_fd (d : Z) (l : list (Z * file)) :
  find (fun e => fst e =? d) (filter (fun x => negb (fst x =? d)) l) = None.
Proof.
  induction l as [|x l IH]; cbn [filter find]; auto.
  destruct (fst x =? d) eqn:E; cbn [negb]; auto.
  cbn [find]. now rewrite E.
Qed.

Lemma find_covers_filter (a0 l a : Z) (vs : list vma) :
  a0 <= a < a0 + l ->
  find (covers a) (filter (fun v => negb (intersects a0 l v)) vs) = None.
Proof.
  intros Ha. induction vs as [|v vs IH]; cbn [filter find]; auto.
  destruct (intersects a0 l v) eqn:Ei; cbn [negb]; auto.
  cbn [find]. rewrite IH.
  destruct (covers a v) eqn:Ec; auto.
  unfold covers in Ec. unfold intersects in Ei.
  apply andb_true_iff in Ec. destruct Ec as [E1 E2].
  apply Z.leb_le in E1. apply Z.ltb_lt in E2.
  apply andb_false_iff in Ei. destruct Ei as [Ei | Ei];
    apply Z.ltb_ge in Ei; lia.
Qed.

Lemma existsb_filter_mem (m : Z) (l : list Z) :
  existsb (Z.eqb m) (filter (fun x => negb (x =? m)) l) = false.
Proof.
  induction l as [|x l IH]; cbn [filter existsb]; auto.
  destruct (x =? m) eqn:E; cbn [negb]; auto.
  cbn [existsb]. rewrite IH, Z.eqb_sym, E. reflexivity.
Qed.

(** The three teardown calls on the reference kernel. *)
Lemma release_step (m : Z) (k : state) :
  existsb (Z.eqb m) (k_mems k) = true ->
  let r := fst (step (CClReleaseMemObject m) k) in
  let k' := snd (step (CClReleaseMemObject m) k) in
  (hd 0 (k_script k) = 0 -> ret r = 0)
  /\ (ret r = 0 ->
      k_mems k' = filter (fun x => negb (x =? m)) (k_mems k))
  /\ k_cells k' = k_cells k /\ k_vmas k' = k_vmas k
  /\ k_files k' = k_files k /\ k_script k' = tl (k_script k).
Proof.
  intros Hm. unfold step. rewrite Hm.
  destruct (same_memory_choose k) as (Hc1 & Hv1 & Hf1 & Hm1).
  destruct (choose_script k) as [Hh Ht].
  destruct (choose k) as [e k1]. cbn [fst snd] in *. rewrite <- Hh.
  destruct (e =? 0) eqn:E; cbn [fst snd ret k_mems k_cells k_vmas k_files k_script].
  - repeat split; auto. intros _. now rewrite Hm1.
  - apply Z.eqb_neq in E. repeat split; auto; intros; contradiction.
Qed.

Lemma munmap_step (a l : Z) (k : state) :
  a mod DEVICE_PAGE_SIZE_CL = 0 -> 0 < l ->
  let r := fst (step (CMunmap a l) k) in
  let k' := snd (step (CMunmap a l) k) in
  (hd 0 (k_script k) = 0 -> ret r = 0)
  /\ (ret r = 0 ->
      k_vmas k' = filter (fun v => negb (intersects a l v)) (k_vmas k))
  /\ k_cells k' = k_cells k /\ k_mems k' = k_mems k
  /\ k_files k' = k_files k /\ k_script k' = tl (k_script k).
Proof.
  intros Ha Hl. unfold step.
  apply Z.eqb_eq in Ha. apply Z.ltb_lt in Hl. rewrite Ha, Hl. cbn [andb].
  destruct (same_memory_choose k) as (Hc1 & Hv1 & Hf1 & Hm1).
  destruct (choose_script k) as [Hh Ht].
  destruct (choose k) as [e k1]. cbn [fst snd] in *. rewrite <- Hh.
  destruct (e =? 0) eqn:E;
    cbn [fst snd ret fail k_mems k_cells k_vmas k_files k_script].
  - repeat split; auto. intros _. now rewrite Hv1.
  - repeat split; auto; try discriminate.
    intros He. apply Z.eqb_neq in E. contradiction.
Qed.

Lemma close_step (d : Z) (f : file) (k : state) :
  lookup_fd d k = Some f ->
  let r := fst (step (CClose d) k) in
  let k' := snd (step (CClose d) k) in
  (hd 0 (k_script k) = 0 -> ret r = 0)
  /\ k_files k' = filter (fun x => negb (fst x =? d)) (k_files k)
  /\ k_cells k' = k_cells k /\ k_mems k' = k_mems k
  /\ k_vmas k' = k_vmas k /\ k_script k' = tl (k_script k).
Proof.
  intros Hfd. unfold step. rewrite Hfd.
  destruct (same_memory_choose k) as (Hc1 & Hv1 & Hf1 & Hm1).
  destruct (choose_script k) as [Hh Ht].
  destruct (choose k) as [e k1]. cbn [fst snd] in *. rewrite <- Hh.
  cbn [fst snd k_mems k_cells k_vmas k_files k_script].
  repeat split; auto.
  - intros ->. reflexivity.
  - now rewrite Hf1.
Qed.

(** [free] without the registration, on a buffer whose region is
    page-aligned and whose descriptor is open. *)
Lemma unmap_and_close_run (st : proc) (k : state) (f : file) :
  addr (this st) mod DEVICE_PAGE_SIZE_CL = 0 -> 0 < mmap_len (this st) ->
  lookup_fd (fd (this st)) k = Some f ->
  forall R : result state (Z * proc),
  R = run step
        ((u <- sys (CMunmap (addr (this st)) (mmap_len (this st))) ;;
          if negb (ret u =? 0) then pure (ret u)
          else c <- sys (CClose (fd (this st))) ;; pure (ret c)) st) k ->
  exists v,
    final R = Returned (v, st)
    /\ k_cells (world R) = k_cells k
    /\ (v = 0 ->
        lookup_fd (fd (this st)) (world R) = None
        /\ k_mems (world R) = k_mems k
        /\ forall i, 0 <= i < mmap_len (this st) ->
             load (world R) (addr (this st) + i) = None)
    /\ (hd 0 (k_script k) = 0 -> hd 0 (tl (k_script k)) = 0 -> v = 0).
Proof.
  intros Ha Hl Hfd R ->.
  pose proof (munmap_step _ _ k Ha Hl) as Hu. cbv zeta in Hu.
  run_step.
  destruct (step (CMunmap (addr (this st)) (mmap_len (this st))) k)
    as [u k1].
  cbn [fst snd] in Hu. destruct Hu as (Hu0 & Huv & Huc & Hum & Huf & Hus).
  run_step.
  destruct (ret u =? 0) eqn:Eu; run_step.
  - apply Z.eqb_eq in Eu.
    assert (Hfd1 : lookup_fd (fd (this st)) k1 = Some f)
      by now rewrite (lookup_fd_same k k1 _ Huf).
    pose proof (close_step _ _ k1 Hfd1) as Hc. cbv zeta in Hc.
    destruct (step (CClose (fd (this st))) k1) as [c k2].
    cbn [fst snd] in Hc. destruct Hc as (Hc0 & Hcf & Hcc & Hcm & Hcv & _).
    run_step. exists (ret c). split; [reflexivity|].
    split; [congruence|]. split.
    + intros _. split; [|split]; [| congruence |].
      * unfold lookup_fd. rewrite Hcf. now rewrite find_filter_fd.
      * intros i Hi. unfold load, find_vma. rewrite Hcv, (Huv Eu).
        rewrite find_covers_filter by lia. reflexivity.
    + intros H0 H1. apply Hc0. now rewrite Hus.
  - apply Z.eqb_neq in Eu. exists (ret u). split; [reflexivity|].
    split; [exact Huc|]. split; [intros; contradiction|].
    intros H0 _. exfalso. apply Eu. now apply Hu0.
Qed.

(** X6.  [free] on a live buffer never aborts and returns 0 whenever
    the kernel lets the (up to) three calls succeed.  After a return of
    0 the descriptor is closed, no address of the region is mapped any
    more, the memory object, if there was one, is gone, and the contents
    of every buffer are what they were: release does not wipe. *)
Theorem free_releases_live (st : proc) (k : state) :
  live (this st) k ->
  exists v,
    final (run step (free st) k) = Returned (v, st)
    /\ k_cells (world (run step (free st) k)) = k_cells k
    /\ (v = 0 ->
        lookup_fd (fd (this st)) (world (run step (free st) k)) = None
        /\ (forall i, 0 <= i < mmap_len (this st) ->
              load (world (run step (free st) k)) (addr (this st) + i) = None)
        /\ (buf_cl (this st) <> 0 ->
            existsb (Z.eqb (buf_cl (this st)))
                    (k_mems (world (run step (free st) k))) = false))
    /\ (Forall (fun d => d = 0) (firstn 3 (k_script k)) -> v = 0).
Proof.
  intros (Ha & Hl & (id & Hfd & _) & Hcl).
  unfold free. run_step.
  destruct (buf_cl (this st) =? 0) eqn:Eb; run_step.
  - apply Z.eqb_eq in Eb.
    destruct (unmap_and_close_run st k _ Ha Hl Hfd _ eq_refl)
      as (v & Hf & Hc & H0 & Hok).
    exists v. split; [exact Hf|]. split; [exact Hc|]. split.
    + intros Hv. destruct (H0 Hv) as (H1 & _ & H3).
      repeat split; auto. intros; contradiction.
    + intros Hs. apply firstn_zero in Hs. apply Hok; tauto.
  - apply Z.eqb_neq in Eb.
    pose proof (release_step _ k (Hcl Eb)) as Hr. cbv zeta in Hr.
    destruct (step (CClReleaseMemObject (buf_cl (this st))) k) as [r k1].
    cbn [fst snd] in Hr. destruct Hr as (Hr0 & Hrm & Hrc & Hrv & Hrf & Hrs).
    run_step.
    destruct (ret r =? 0) eqn:Er; run_step.
    + apply Z.eqb_eq in Er.
      assert (Hfd1 : lookup_fd (fd (this st)) k1 = Some (FDmaBuf id))
        by now rewrite (lookup_fd_same k k1 _ Hrf).
      destruct (unmap_and_close_run st k1 _ Ha Hl Hfd1 _ eq_refl)
        as (v & Hf & Hc & H0 & Hok).
      exists v. split; [exact Hf|]. split; [rewrite <- Hrc; exact Hc|]. split.
      * intros Hv. destruct (H0 Hv) as (H1 & H2 & H3).
        repeat split; auto.
        intros _.
        pose proof (existsb_filter_mem (buf_cl (this st)) (k_mems k)) as He.
        rewrite <- (Hrm Er), <- H2 in He. exact He.
      * intros Hs. apply firstn_zero in Hs. apply Hok; rewrite Hrs; tauto.
    + apply Z.eqb_neq in Er. exists (ret r). split; [reflexivity|].
      split; [exact Hrc|]. split; [intros; contradiction|].
      intros Hs. apply firstn_zero in Hs. exfalso. apply Er. apply Hr0. tauto.
Qed.

Lemma store_frame (k : state) (a c : Z) :
  k_files (store k a c) = k_files k /\ k_mems (store k a c) = k_mems k.
Proof. unfold store. destruct (find_vma a k); auto. Qed.

Lemma memset_bytes_frame (n : nat) (s c : Z) (k : state) :
  k_files (memset_bytes n s c k) = k_files k
  /\ k_mems (memset_bytes n s c k) = k_mems k.
Proof.
  revert s k. induction n as [|n IH]; intros s k; cbn [memset_bytes]; auto.
  destruct (IH (s + 1) (store k s c)) as [H1 H2].
  destruct (store_frame k s c) as [H3 H4]. split; congruence.
Qed.

(** More of what a successful mapping tells. *)
Lemma mmap_success_placed (hint l prot flags d off : Z) (k k' : state)
      (m : answer) :
  step (CMmap hint l prot flags d off) k = (m, k') ->
  ret m <> MAP_FAILED ->
  ret m mod DEVICE_PAGE_SIZE_CL = 0
  /\ k_mems k' = k_mems k /\ k_files k' = k_files k
  /\ forallb (fun v => negb (intersects (ret m) l v)) (k_vmas k) = true.
Proof.
  unfold step.
  destruct (lookup_fd d k) as [[| |id]|];
    try (intros H Hm; inversion H; subst; exfalso; apply Hm; reflexivity).
  destruct (same_memory_choose k) as (_ & Hv & Hf & Hmm).
  destruct (choose k) as [p k1]. cbn [snd] in *.
  destruct ((off =? 0) && placeable p l k1) eqn:Hp;
    intros H Hm; inversion H; subst;
    [|exfalso; apply Hm; reflexivity].
  cbn [k_mems k_files ret].
  apply andb_true_iff in Hp. destruct Hp as [_ Hp]. unfold placeable in Hp.
  repeat (apply andb_true_iff in Hp; destruct Hp as [Hp ?]).
  repeat split; auto.
  - now apply Z.eqb_eq.
  - now rewrite <- Hv.
Qed.

(** A mapping placed clear of the existing ones hides none of them. *)
Lemma find_vma_behind (k k' : state) (p l id a : Z) (v : vma) :
  k_vmas k' = mkVma p l id :: k_vmas k ->
  forallb (fun v => negb (intersects p l v)) (k_vmas k) = true ->
  find_vma a k = Some v ->
  find_vma a k' = Some v.
Proof.
  intros Hv Hfree Hfind. unfold find_vma in *. rewrite Hv. cbn [find].
  destruct (covers a (mkVma p l id)) eqn:Ec; auto.
  exfalso. apply find_some in Hfind. destruct Hfind as [Hin Hcov].
  rewrite forallb_forall in Hfree. specialize (Hfree v Hin).
  apply negb_true_iff in Hfree.
  unfold covers in Ec, Hcov. cbn [vm_start vm_len] in Ec.
  unfold intersects in Hfree.
  apply andb_true_iff in Ec. destruct Ec as [E1 E2].
  apply andb_true_iff in Hcov. destruct Hcov as [E3 E4].
  apply Z.leb_le in E1, E3. apply Z.ltb_lt in E2, E4.
  apply andb_false_iff in Hfree. destruct Hfree as [Hf | Hf];
    apply Z.ltb_ge in Hf; lia.
Qed.

(** X7.  A second view of a live buffer.  When [import] returns on an
    object that holds a live buffer, the object holds a live buffer at
    its new address; byte for byte the new view shows what the old one
    showed; and the old mapping is still in place, showing the same
    bytes: [import] has not unmapped it. *)
Theorem import_second_view (st : proc) (k : state) (u : unit) (st' : proc) :
  live (this st) k ->
  final (run step (import st) k) = Returned (u, st') ->
  live (this st') (world (run step (import st) k))
  /\ forall i, 0 <= i < mmap_len (this st) ->
       load (world (run step (import st) k)) (addr (this st') + i)
       = load k (addr (this st) + i)
       /\ load (world (run step (import st) k)) (addr (this st) + i)
          = load k (addr (this st) + i).
Proof.
  intros (Ha & Hl & (id & Hfd & Hmap) & Hcl) Hret.
  destruct (import_returned _ step st k u st' Hret)
    as (m & Hstep & _ & _ & Hm & ->).
  unfold mmap_request in Hstep.
  destruct (mmap_success _ _ _ _ _ _ _ _ _ Hstep Hm)
    as (id' & Hfd' & Hpos & _ & _ & Hv & Hcells).
  destruct (mmap_success_placed _ _ _ _ _ _ _ _ _ Hstep Hm)
    as (Hal & Hmems & Hfiles & Hfree).
  assert (id' = id) by congruence. subst id'.
  cbn [this addr mmap_len fd buf_cl].
  split.
  - repeat split; cbn [addr mmap_len fd buf_cl]; auto.
    + exists id. split.
      * now rewrite (lookup_fd_same k _ _ Hfiles).
      * intros i Hi. exists (mkVma (ret m) (mmap_len (this st)) id).
        split; [|split]; auto.
        exact (find_vma_head _ _ _ _ _ _ Hv Hi).
    + intros Hb. rewrite Hmems. now apply Hcl.
  - intros i Hi. destruct (Hmap i Hi) as (v & Hfind & Hbuf & Hstart).
    assert (Hold : load k (addr (this st) + i) = Some (k_cells k id i)).
    { unfold load. rewrite Hfind, Hbuf, Hstart. do 2 f_equal. lia. }
    split.
    + rewrite Hold. unfold load.
      rewrite (find_vma_head _ _ _ _ _ _ Hv Hi).
      cbn [vm_buf vm_start]. rewrite Hcells. do 2 f_equal. lia.
    + unfold load at 1.
      rewrite (find_vma_behind k _ _ _ _ _ _ Hv Hfree Hfind).
      rewrite Hcells. unfold load. now rewrite Hfind.
Qed.

(** X8.  [allocate] makes a live buffer: when it returns on an object
    without a memory object, the address is page-aligned, the mapped
    length is positive, the descriptor names a dma-buf and the whole
    region is mapped onto it; so [init_cl], [sync], [import] and [free]
    find what they need. *)
Theorem allocate_makes_live (length : Z) (st : proc) (k : state) (u : unit)
        (st' : proc) :
  buf_cl (this st) = 0 ->
  final (run step (allocate length st) k) = Returned (u, st') ->
  live (this st') (world (run step (allocate length st) k))
  /\ buf_cl (this st') = 0.
Proof.
  intros Hb Hf.
  destruct (allocate_returned _ step length st k u st' Hf)
    as (d & r & m & s0 & k2 & k3 & t & _ & _ & Hm & Hmap & Hset & ->).
  unfold mmap_request in Hmap.
  destruct (mmap_success _ _ _ _ _ _ _ _ _ Hmap Hm)
    as (id & Hfd & Hpos & Hl & _ & Hv & _).
  destruct (mmap_success_placed _ _ _ _ _ _ _ _ _ Hmap Hm)
    as (Hal & _ & Hfiles & _).
  cbn [step] in Hset. inversion Hset as [[Hs Hw]].
  destruct (memset_bytes_frame (Z.to_nat (alloc_len length)) (ret m)
              (0 mod 256) k3) as [Hmf _].
  pose proof (memset_bytes_vmas (Z.to_nat (alloc_len length)) (ret m)
                (0 mod 256) k3) as Hmv.
  cbn [this allocated]. split; [|exact Hb].
  repeat split; cbn [addr mmap_len fd buf_cl]; auto.
  - exists id. split.
    + unfold lookup_fd in *. rewrite Hmf, Hfiles. exact Hfd.
    + intros i Hi. exists (mkVma (ret m) (alloc_len length) id).
      split; [|split]; auto.
      apply (find_vma_head _ _ _ _ _ (k_vmas k2)); auto.
      rewrite Hmv. exact Hv.
Qed.

(** Opening the device and asking the heap change no byte and no
    mapping. *)
Lemma open_alloc_step_frame (c : call) (k : state) :
  is_open c || is_ion_alloc c = true ->
  forall k0, (k_cells k = k_cells k0 /\ k_vmas k = k_vmas k0) ->
  k_cells (snd (step c k)) = k_cells k0 /\ k_vmas (snd (step c k)) = k_vmas k0.
Proof.
  intros Hc k0 [Hc0 Hv0].
  destruct (same_memory_choose k) as (Hc1 & Hv1 & _).
  destruct c as [path flags|d l mask flags| | | | | | |];
    try discriminate Hc; unfold step.
  - destruct (choose k) as [e k1]. cbn [snd] in *.
    destruct (negb (e =? 0)); cbn [snd]; [split; congruence|].
    destruct (negb (String.eqb path "/dev/ion")); cbn [snd k_cells k_vmas];
      split; congruence.
  - destruct (lookup_fd d k) as [[| |id]|]; cbn [snd]; auto.
    destruct (choose k) as [e k1]. cbn [snd] in *.
    destruct (negb (e =? 0)); cbn [snd]; [split; congruence|].
    destruct (l =? 0); cbn [snd k_cells k_vmas]; split; congruence.
Qed.

(** The state of the kernel just before [allocate] maps: the bytes and
    the mappings it started with. *)
Lemma allocate_before_mapping (length : Z) (st : proc) (k : state) (u : unit)
      (st' : proc) :
  final (run step (allocate length st) k) = Returned (u, st') ->
  exists r m k2 k3,
    k_cells k2 = k_cells k /\ k_vmas k2 = k_vmas k
    /\ step (mmap_request (alloc_len length) (out r)) k2 = (m, k3)
    /\ ret m <> MAP_FAILED
    /\ world (run step (allocate length st) k)
       = memset_bytes (Z.to_nat (alloc_len length)) (ret m) (0 mod 256) k3
    /\ this st' = allocated st length r m.
Proof.
  unfold allocate. rewrite run_bind.
  destruct (alloc_loop_run state step length st k)
    as [(Efh & ro & Ht & Hro & Hf0)
       |(opens & d & pre & r & w0 & Hop & Ht & Hr & Hl & Hi & Hf0 & Hh)];
    rewrite Hf0; cbn [trace final world]; [discriminate|].
  assert (Hinv : k_cells (world (run step
                   (HANDLE_EINTR
                      (d <- ion_fd ;; sys (ion_alloc_request d length)) st) k))
                 = k_cells k
                 /\ k_vmas (world (run step
                   (HANDLE_EINTR
                      (d <- ion_fd ;; sys (ion_alloc_request d length)) st) k))
                    = k_vmas k).
  { apply (run_invariant state step _
             (fun k' => k_cells k' = k_cells k /\ k_vmas k' = k_vmas k)
             (fun c => is_open c || is_ion_alloc c)).
    - intros c w Hc Hw. now apply open_alloc_step_frame.
    - split; reflexivity.
    - rewrite Ht. apply Forall_app. split.
      + destruct Hop as [[_ ->] | (_ & ro & -> & _)]; repeat constructor.
      + apply Forall_app. split; [|repeat constructor].
        eapply Forall_impl; [|exact Hr]. intros e [He _]. now rewrite He. }
  remember (world (run step
              (HANDLE_EINTR
                 (d <- ion_fd ;; sys (ion_alloc_request d length)) st) k))
    as k2 eqn:Ek2.
  fold (alloc_len length). run_step.
  destruct (ret r =? 0) eqn:Hret; run_step; [|discriminate].
  fold (mmap_request (alloc_len length) (out r)).
  destruct (step (mmap_request (alloc_len length) (out r)) k2)
    as [m k3] eqn:Em.
  run_step.
  destruct (ret m =? MAP_FAILED) eqn:Hm; run_step; [discriminate|].
  apply Z.eqb_neq in Hm. cbn [step]. run_step.
  intros Hf. inversion Hf; subst st'.
  exists r, m, k2, k3. destruct Hinv as [Hc Hv].
  repeat split; auto.
Qed.

(** [memset] over a range inside the first mapping writes to the buffer
    of that mapping only. *)
Lemma memset_bytes_other (n : nat) (s c p l id : Z) (vs : list vma)
      (k : state) :
  k_vmas k = mkVma p l id :: vs ->
  p <= s -> s + Z.of_nat n <= p + l ->
  forall i o, i <> id ->
    k_cells (memset_bytes n s c k) i o = k_cells k i o.
Proof.
  revert s k. induction n as [|n IH]; intros s k Hv Hs Hn i o Hi;
    cbn [memset_bytes]; auto.
  rewrite IH; try lia; [|now rewrite store_vmas].
  unfold store.
  replace s with (p + (s - p)) at 1 by lia.
  rewrite (find_vma_head k p l id (s - p) vs Hv) by lia.
  cbn [k_cells vm_buf].
  destruct (i =? id) eqn:E; [apply Z.eqb_eq in E; contradiction|].
  reflexivity.
Qed.

(** X9.  [allocate] disturbs no other buffer.  When it returns, the
    contents of every buffer but the one its new descriptor names are
    what they were, every address that was mapped is still mapped by
    the same mapping, and so reads as before unless it is a view of
    that buffer. *)
Theorem allocate_keeps_other_buffers (length : Z) (st : proc) (k : state)
        (u : unit) (st' : proc) :
  final (run step (allocate length st) k) = Returned (u, st') ->
  exists id,
    lookup_fd (fd (this st')) (world (run step (allocate length st) k))
    = Some (FDmaBuf id)
    /\ (forall i o, i <> id ->
          k_cells (world (run step (allocate length st) k)) i o
          = k_cells k i o)
    /\ (forall a v, find_vma a k = Some v ->
          find_vma a (world (run step (allocate length st) k)) = Some v
          /\ (vm_buf v <> id ->
              load (world (run step (allocate length st) k)) a = load k a)).
Proof.
  intros Hf.
  destruct (allocate_before_mapping length st k u st' Hf)
    as (r & m & k2 & k3 & Hc2 & Hv2 & Hmap & Hm & Hw & Hst).
  unfold mmap_request in Hmap.
  destruct (mmap_success _ _ _ _ _ _ _ _ _ Hmap Hm)
    as (id & Hfd & Hpos & Hl & _ & Hv & Hcells).
  destruct (mmap_success_placed _ _ _ _ _ _ _ _ _ Hmap Hm)
    as (_ & _ & Hfiles & Hfree).
  destruct (memset_bytes_frame (Z.to_nat (alloc_len length)) (ret m)
              (0 mod 256) k3) as [Hmf _].
  pose proof (memset_bytes_vmas (Z.to_nat (alloc_len length)) (ret m)
                (0 mod 256) k3) as Hmv.
  assert (Hother : forall i o, i <> id ->
            k_cells (world (run step (allocate length st) k)) i o
            = k_cells k i o).
  { intros i o Hi. rewrite Hw.
    rewrite (memset_bytes_other _ _ _ _ _ _ _ _ Hv) by (auto; lia).
    now rewrite Hcells, Hc2. }
  assert (Hkeep : forall a v, find_vma a k = Some v ->
            find_vma a (world (run step (allocate length st) k)) = Some v).
  { intros a v Ha. rewrite Hw. unfold find_vma at 1. rewrite Hmv.
    apply (find_vma_behind k2 k3 _ _ _ _ _ Hv).
    - exact Hfree.
    - unfold find_vma in *. now rewrite Hv2. }
  exists id. split; [|split].
  - rewrite Hst. cbn [allocated fd]. rewrite Hw.
    unfold lookup_fd in *. rewrite Hmf, Hfiles. exact Hfd.
  - exact Hother.
  - intros a v Ha. split; [now apply Hkeep|].
    intros Hb. unfold load. rewrite (Hkeep a v Ha), Ha.
    now rewrite (Hother _ _ Hb).
Qed.

(** The sync ioctl on an open dma-buf takes the next choice of the
    script. *)
Lemma sync_step_choice (d flags id e : Z) (s : list Z) (k : state) :
  lookup_fd d k = Some (FDmaBuf id) -> k_script k = e :: s ->
  fst (step (CIoctlSync d flags) k) = (if e =? 0 then Answer 0 0 0 else fail e)
  /\ k_script (snd (step (CIoctlSync d flags) k)) = s
  /\ k_files (snd (step (CIoctlSync d flags) k)) = k_files k.
Proof.
  intros Hfd Hs. unfold step. rewrite Hfd. unfold choose. rewrite Hs.
  destruct (e =? 0); cbn; auto.
Qed.

Lemma sync_loop_succeeds (j : nat) :
  forall (n : nat) (d flags id : Z) (rest : list Z) (st : proc) (k : state),
    lookup_fd d k = Some (FDmaBuf id) ->
    k_script k = repeat EINTR j ++ 0 :: rest -> (j <= n)%nat ->
    final (run step (eintr_loop n (sys (CIoctlSync d flags)) st) k)
      = Returned (Answer 0 0 0, st)
    /\ List.length (trace (run step (eintr_loop n (sys (CIoctlSync d flags)) st) k))
       = S j
    /\ k_script (world (run step (eintr_loop n (sys (CIoctlSync d flags)) st) k))
       = rest.
Proof.
  induction j as [|j IH]; intros n d flags id rest st k Hfd Hs Hj;
    rewrite (eintr_loop_step state step n _ (CIoctlSync d flags) st k eq_refl);
    cbn [repeat app] in Hs;
    destruct (sync_step_choice d flags id _ _ k Hfd Hs) as (Hr & Hs1 & Hf1);
    destruct (step (CIoctlSync d flags) k) as [r k1]; cbn [fst snd] in *;
    subst r.
  - cbn. auto.
  - cbn [Z.eqb EINTR interrupted fail ret errno andb].
    change (interrupted (fail EINTR)) with true. cbn iota.
    destruct n as [|n]; [lia|].
    assert (Hfd1 : lookup_fd d k1 = Some (FDmaBuf id))
      by now rewrite (lookup_fd_same k k1 _ Hf1).
    destruct (IH n d flags id rest st k1 Hfd1 Hs1) as (H1 & H2 & H3); [lia|].
    cbn [trace final world List.length]. rewrite H1, H2, H3. auto.
Qed.

Lemma sync_loop_exhausted (n : nat) :
  forall (d flags id : Z) (rest : list Z) (st : proc) (k : state),
    lookup_fd d k = Some (FDmaBuf id) ->
    k_script k = repeat EINTR (S n) ++ rest ->
    final (run step (eintr_loop n (sys (CIoctlSync d flags)) st) k)
      = Returned (fail EINTR, st)
    /\ List.length (trace (run step (eintr_loop n (sys (CIoctlSync d flags)) st) k))
       = S n
    /\ k_script (world (run step (eintr_loop n (sys (CIoctlSync d flags)) st) k))
       = rest.
Proof.
  induction n as [|n IH]; intros d flags id rest st k Hfd Hs;
    rewrite (eintr_loop_step state step _ _ (CIoctlSync d flags) st k eq_refl);
    cbn [repeat app] in Hs;
    destruct (sync_step_choice d flags id _ _ k Hfd Hs) as (Hr & Hs1 & Hf1);
    destruct (step (CIoctlSync d flags) k) as [r k1]; cbn [fst snd] in *;
    subst r; change (interrupted (if EINTR =? 0 then Answer 0 0 0 else fail EINTR))
               with true; cbn iota.
  - cbn. auto.
  - assert (Hfd1 : lookup_fd d k1 = Some (FDmaBuf id))
      by now rewrite (lookup_fd_same k k1 _ Hf1).
    destruct (IH d flags id rest st k1 Hfd1 Hs1) as (H1 & H2 & H3).
    cbn [trace final world List.length]. rewrite H1, H2, H3. auto.
Qed.

(** X10.  [sync] rides out interruptions, up to a hundred of them.  On an
    open dma-buf, when the kernel interrupts the request [j] times
    ([j] at most 100) and then lets it through, [sync] returns 0 after
    exactly [j + 1] requests; when the kernel interrupts it 101 times,
    [sync] gives up after exactly 101 requests and returns -1.  In both
    cases it has used up exactly the choices of the requests it made. *)
Theorem sync_retries_through_interruptions (dir : Z) (st : proc) (k : state)
        (id : Z) (rest : list Z) :
  dir = VISIONBUF_SYNC_FROM_DEVICE \/ dir = VISIONBUF_SYNC_TO_DEVICE ->
  lookup_fd (fd (this st)) k = Some (FDmaBuf id) ->
  (forall j, (j <= 100)%nat ->
     k_script k = repeat EINTR j ++ 0 :: rest ->
     final (run step (sync dir st) k) = Returned (0, st)
     /\ List.length (trace (run step (sync dir st) k)) = S j
     /\ k_script (world (run step (sync dir st) k)) = rest)
  /\ (k_script k = repeat EINTR 101 ++ rest ->
      final (run step (sync dir st) k) = Returned (-1, st)
      /\ List.length (trace (run step (sync dir st) k)) = 101%nat
      /\ k_script (world (run step (sync dir st) k)) = rest).
Proof.
  intros Hd Hfd. rewrite (sync_unfold state step dir st k Hd).
  unfold HANDLE_EINTR. cbn [trace final world]. split.
  - intros j Hj Hs.
    destruct (sync_loop_succeeds j 100 _ (sync_flags dir) id rest st k Hfd Hs Hj)
      as (H1 & H2 & H3).
    rewrite H1, H2, H3. auto.
  - intros Hs.
    destruct (sync_loop_exhausted 100 _ (sync_flags dir) id rest st k Hfd Hs)
      as (H1 & H2 & H3).
    rewrite H1, H2, H3. auto.
Qed.

End MoreOnKernel.

End Source.

(** ** Concrete runs on the reference kernel *)

(** The values the missing headers give the three constants. *)
Definition HEAP_ID : Z := 25.
Definition FROM_DEVICE : Z := 0.
Definition TO_DEVICE : Z := 1.

(** A process that has not used the heap yet, holding an object none of
    whose fields is set; heap memory is full of 0xAA. *)
Definition blank : VisionBuf := mkVisionBuf 0 0 0 0 0 0.
Definition start : proc := mkProc None blank.
Definition stale : Z -> Z -> Z := fun _ _ => 170.

Definition after {A : Type} (R : result Kernel.state (A * proc)) : proc :=
  match final R with
  | Returned x => snd x
  | Aborted => start
  end.

(** [allocate 16]: the device opens, the heap grants at once, the mapper
    places the region at 8192; [rest] decides what follows.  [st16] and
    [k16] are the process and the kernel this run ends in. *)
Definition alloc16 (rest : list Z) : result Kernel.state (unit * proc) :=
  run Kernel.step (allocate HEAP_ID 16 start)
      (Kernel.boot stale (0 :: 0 :: 8192 :: rest)).

Definition st16 : proc := Eval vm_compute in after (alloc16 []).
Definition k16 (rest : list Z) : Kernel.state :=
  Eval vm_compute in world (alloc16 rest).

(** The same buffer, then registered with a compute context. *)
Definition reg16 (rest : list Z) : result Kernel.state (unit * proc) :=
  run Kernel.step (init_cl 0 7 st16) (k16 (0 :: rest)).

Definition st_reg : proc := Eval vm_compute in after (reg16 []).
Definition k_reg (rest : list Z) : Kernel.state :=
  Eval vm_compute in world (reg16 rest).

(** [free] of the plain and of the registered buffer, [sync] of the
    plain buffer, and a second view of it mapped at 12288. *)
Definition free16 (rest : list Z) : result Kernel.state (Z * proc) :=
  run Kernel.step (free st16) (k16 rest).
Definition free_reg16 (rest : list Z) : result Kernel.state (Z * proc) :=
  run Kernel.step (free st_reg) (k_reg rest).
Definition sync16 (rest : list Z) : result Kernel.state (Z * proc) :=
  run Kernel.step (sync FROM_DEVICE TO_DEVICE TO_DEVICE st16) (k16 rest).
Definition import16 : result Kernel.state (unit * proc) :=
  run Kernel.step (import st16) (k16 [12288]).

(** [allocate 0], and [allocate] with the largest [size_t]. *)
Definition alloc0 : result Kernel.state (unit * proc) :=
  run Kernel.step (allocate HEAP_ID 0 start) (Kernel.boot stale [0; 0; 8192]).
Definition alloc_max : result Kernel.state (unit * proc) :=
  run Kernel.step (allocate HEAP_ID (2 ^ 64 - 1) start)
      (Kernel.boot stale [0; 0; 8192]).

(** The registered buffer is released with success; a second object
    then allocates, and the first object syncs. *)
Definition released : result Kernel.state (Z * proc) :=
  free_reg16 [0; 0; 0; 0; 8192; 0].
Definition k_released : Kernel.state := Eval vm_compute in world released.
Definition second_owner : result Kernel.state (unit * proc) :=
  run Kernel.step (allocate HEAP_ID 16 (mkProc (fh st_reg) blank)) k_released.
Definition k_second : Kernel.state := Eval vm_compute in world second_owner.

(** Runs that meet a fatal condition. *)
Definition denied : result Kernel.state (unit * proc) :=
  run Kernel.step (allocate HEAP_ID 16 start) (Kernel.boot stale [0; 12]).
Definition unmapped : result Kernel.state (unit * proc) :=
  run Kernel.step (allocate HEAP_ID 16 start) (Kernel.boot stale [0; 0; 0]).
Definition bad_handle : result Kernel.state (unit * proc) :=
  run Kernel.step (import (mkProc None (set_fd (-1) blank)))
      (Kernel.boot stale []).
Definition import_unmapped : result Kernel.state (unit * proc) :=
  run Kernel.step (import start) (Kernel.boot stale []).
Definition misaligned : result Kernel.state (unit * proc) :=
  run Kernel.step (init_cl 0 7 (mkProc None (set_addr 1 blank)))
      (Kernel.boot stale []).
Definition rejected : result Kernel.state (unit * proc) :=
  run Kernel.step (init_cl 0 7 st16) (k16 [5]).

(** The named states are the ends of the runs they are named after. *)
Lemma alloc16_ends (rest : list Z) :
  final (alloc16 rest) = Returned (tt, st16) /\ world (alloc16 rest) = k16 rest.
Proof. split; vm_compute; reflexivity. Qed.

Lemma reg16_ends (rest : list Z) :
  final (reg16 rest) = Returned (tt, st_reg) /\ world (reg16 rest) = k_reg rest.
Proof. split; vm_compute; reflexivity. Qed.

Lemma released_ends :
  world released = k_released /\ world second_owner = k_second.
Proof. split; vm_compute; reflexivity. Qed.

(** C1, a run the claim as stated does not cover: with the largest
    [size_t] the total wraps to 7, the kernel grants a request for 7
    bytes, and [allocate] returns with [mmap_len] below [len]. *)
Lemma allocate_max_is_short :
  0 < 2 ^ 64 - 1
  /\ final alloc_max = Returned (tt, after alloc_max)
  /\ len (this (after alloc_max)) = 2 ^ 64 - 1
  /\ mmap_len (this (after alloc_max)) = 7
  /\ ~ (mmap_len (this (after alloc_max)) >= len (this (after alloc_max))).
Proof.
  repeat split; try (vm_compute; reflexivity).
  vm_compute. intros H. apply H. reflexivity.
Qed.

Lemma allocate_zero_filled_witness :
  0 < 16
  /\ 16 + PADDING_CL + sizeof_uint64_t < 2 ^ SIZE_WIDTH
  /\ final (alloc16 []) = Returned (tt, st16)
  /\ mmap_len (this st16) = 16 + PADDING_CL + sizeof_uint64_t
  /\ forall i, 0 <= i < mmap_len (this st16) ->
       Kernel.load (world (alloc16 [])) (addr (this st16) + i) = Some 0.
Proof.
  assert (H0 : 0 < 16) by lia.
  assert (H1 : 16 + PADDING_CL + sizeof_uint64_t < 2 ^ SIZE_WIDTH)
    by reflexivity.
  assert (Hf : final (alloc16 []) = Returned (tt, st16))
    by (vm_compute; reflexivity).
  destruct (allocate_zero_filled HEAP_ID 16 start
              (Kernel.boot stale [0; 0; 8192]) H0 H1) as [_ H].
  destruct (H st16 Hf) as (_ & Hm & _ & _ & Hz).
  repeat apply conj; assumption.
Defined.

Lemma free_order_witness :
  (buf_cl (this st16) = 0
   /\ (forall e, In e (trace (free16 [0; 0])) -> is_cl_release (fst e) = false)
   /\ exists u c,
       trace (free16 [0; 0])
       = [(CMunmap (addr (this st16)) (mmap_len (this st16)), u);
          (CClose (fd (this st16)), c)]
       /\ final (free16 [0; 0]) = Returned (ret c, st16))
  /\ (buf_cl (this st_reg) <> 0
      /\ (exists r,
            trace (free_reg16 [5])
            = [(CClReleaseMemObject (buf_cl (this st_reg)), r)]
            /\ final (free_reg16 [5]) = Returned (ret r, st_reg))
      /\ exists r u c,
          trace (free_reg16 [0; 0; 0])
          = [(CClReleaseMemObject (buf_cl (this st_reg)), r);
             (CMunmap (addr (this st_reg)) (mmap_len (this st_reg)), u);
             (CClose (fd (this st_reg)), c)]
          /\ final (free_reg16 [0; 0; 0]) = Returned (ret c, st_reg)).
Proof.
  split.
  - split; [reflexivity|].
    destruct (proj1 (proj2 (free_order _ Kernel.step st16 (k16 [0; 0])))
                eq_refl) as (Hno & u & t & Ht & Hu).
    split; [exact Hno|].
    assert (H0 : 0 = ret u).
    { apply (f_equal (fun l => match l with
                               | e :: _ => ret (snd e)
                               | [] => 1
                               end)) in Ht.
      vm_compute in Ht. exact Ht. }
    destruct (Hu (eq_sym H0)) as (c & Hc & Hf).
    exists u, c. split; [|exact Hf].
    unfold free16. rewrite Ht, Hc. reflexivity.
  - assert (Hne : buf_cl (this st_reg) <> 0) by (vm_compute; discriminate).
    split; [exact Hne|]. split.
    + destruct (proj2 (proj2 (free_order _ Kernel.step st_reg (k_reg [5]))) Hne)
        as (r & t & Ht & Hr & _).
      assert (H5 : 5 = ret r).
      { apply (f_equal (fun l => match l with
                                 | e :: _ => ret (snd e)
                                 | [] => 0
                                 end)) in Ht.
        vm_compute in Ht. exact Ht. }
      assert (Hr0 : ret r <> 0) by (rewrite <- H5; discriminate).
      destruct (Hr Hr0) as [-> Hf].
      exists r. split; assumption.
    + destruct (proj2 (proj2 (free_order _ Kernel.step st_reg
                                (k_reg [0; 0; 0]))) Hne)
        as (r & t & Ht & _ & Hr).
      assert (H0 : 0 = ret r).
      { apply (f_equal (fun l => match l with
                                 | e :: _ => ret (snd e)
                                 | [] => 1
                                 end)) in Ht.
        vm_compute in Ht. exact Ht. }
      destruct (Hr (eq_sym H0)) as (u & t' & Ht' & Hu).
      assert (H1 : 0 = ret u).
      { rewrite Ht' in Ht.
        apply (f_equal (fun l => match l with
                                 | _ :: e :: _ => ret (snd e)
                                 | _ => 1
                                 end)) in Ht.
        vm_compute in Ht. exact Ht. }
      destruct (Hu (eq_sym H1)) as (c & Hc & Hf).
      exists r, u, c. split; [|exact Hf].
      unfold free_reg16. rewrite Ht, Ht', Hc. reflexivity.
Defined.

(** C3, a run against the claim as stated: the unmap fails, [free]
    returns its -1 without closing the descriptor, which stays open. *)
Lemma free_skips_close_after_failed_unmap :
  trace (free16 [12]) = [(CMunmap 8192 24, Answer (-1) 12 0)]
  /\ final (free16 [12]) = Returned (-1, st16)
  /\ ~ In (CClose 4) (calls (trace (free16 [12])))
  /\ Kernel.lookup_fd 4 (world (free16 [12])) = Some (Kernel.FDmaBuf 0).
Proof.
  repeat split; try (vm_compute; reflexivity).
  vm_compute. intros [H | []]. discriminate H.
Qed.

Lemma free_stops_at_first_failure_witness :
  final (free16 [12]) = Returned (-1, st16)
  /\ forall e, In e (trace (free16 [12])) -> is_close (fst e) = false.
Proof.
  destruct (free_stops_at_first_failure _ Kernel.step st16 (k16 [12]))
    as (t & c & r & Ht & _ & Hf & _ & Hne).
  assert (Hl : last (trace (free16 [12])) (CClose 0, Answer 0 0 0)
               = (CMunmap 8192 24, Answer (-1) 12 0))
    by (vm_compute; reflexivity).
  unfold free16 in Hl. rewrite Ht, last_last in Hl.
  injection Hl as -> ->.
  split; [exact Hf|].
  apply Hne; [cbn; discriminate | reflexivity].
Defined.



Lemma sync_returns_status_witness :
  (TO_DEVICE = FROM_DEVICE \/ TO_DEVICE = TO_DEVICE)
  /\ exists pre r,
      trace (sync16 [4; 4; 0])
      = pre ++ [(CIoctlSync (fd (this st16))
                            (sync_flags FROM_DEVICE TO_DEVICE), r)]
      /\ retried (CIoctlSync (fd (this st16))
                             (sync_flags FROM_DEVICE TO_DEVICE)) pre
      /\ (List.length pre <= 100)%nat
      /\ final (sync16 [4; 4; 0]) = Returned (ret r, st16)
      /\ (interrupted r = true -> List.length pre = 100%nat /\ ret r = -1).
Proof.
  split; [right; reflexivity|].
  apply (sync_returns_status FROM_DEVICE TO_DEVICE _ Kernel.step TO_DEVICE
           st16 (k16 [4; 4; 0])).
  right; reflexivity.
Defined.

Lemma fatal_faults_abort_witness :
  final denied = Aborted
  /\ final unmapped = Aborted
  /\ (exists c r, In (c, r) (trace (alloc16 []))
                  /\ is_ion_alloc c = true /\ ret r = 0)
  /\ (final bad_handle = Aborted /\ trace bad_handle = [])
  /\ final import_unmapped = Aborted
  /\ (final misaligned = Aborted /\ trace misaligned = [])
  /\ final rejected = Aborted.
Proof.
  destruct (fatal_faults_abort HEAP_ID _ Kernel.step)
    as (A1 & A2 & A3 & I1 & I2 & C1 & C2).
  assert (Hd : In (CIoctlIonAlloc 3 24 33554432 1, Answer (-1) 12 0)
                  (trace denied)) by (vm_compute; auto).
  assert (Hu : In (CMmap 0 24 3 1 4 0, Answer MAP_FAILED ENOMEM 0)
                  (trace unmapped)) by (vm_compute; auto).
  assert (Hf : final (alloc16 []) = Returned (tt, st16))
    by (vm_compute; reflexivity).
  assert (Hi : In (CMmap 0 0 3 1 0 0, Answer MAP_FAILED EBADF 0)
                  (trace import_unmapped)) by (vm_compute; auto).
  assert (Hr : In (CClCreateBuffer 7 536870920 16 16552 16548 4 8192,
                   Answer 0 0 5) (trace rejected)) by (vm_compute; auto).
  split; [|split; [|split; [|split; [|split; [|split]]]]].
  - apply (A1 16 start (Kernel.boot stale [0; 12]) _ _ Hd); try reflexivity.
    cbn. discriminate.
  - apply (A2 16 start (Kernel.boot stale [0; 0; 0]) _ _ Hu); reflexivity.
  - destruct (A3 16 start (Kernel.boot stale [0; 0; 8192]) _ Hf)
      as (c & r & _ & _ & Hin & Hc & Hr0 & _).
    exists c, r. auto.
  - apply (I1 (mkProc None (set_fd (-1) blank)) (Kernel.boot stale [])).
    cbn. lia.
  - apply (I2 start (Kernel.boot stale []) _ _ Hi); reflexivity.
  - apply (C1 0 7 (mkProc None (set_addr 1 blank)) (Kernel.boot stale [])).
    vm_compute. discriminate.
  - apply (C2 0 7 st16 (k16 [5]) _ _ Hr). cbn. discriminate.
Defined.

(** C7, a run against the claim as stated: with the largest [size_t]
    the heap is asked for 7 bytes, not for the sum, 7 is what
    [mmap_len] records, and [frame_id] is 8191, below [addr], not
    [addr + len + PADDING_CL]. *)
Lemma allocate_max_request_wraps :
  In (CIoctlIonAlloc 3 7 (Z.shiftl 1 HEAP_ID) ION_FLAG_CACHED, Answer 0 0 4)
     (trace alloc_max)
  /\ 7 <> (2 ^ 64 - 1) + PADDING_CL + sizeof_uint64_t
  /\ final alloc_max = Returned (tt, after alloc_max)
  /\ mmap_len (this (after alloc_max)) = 7
  /\ frame_id (this (after alloc_max)) = 8191
  /\ frame_id (this (after alloc_max))
     <> addr (this (after alloc_max)) + len (this (after alloc_max))
        + PADDING_CL.
Proof.
  split; [vm_compute; auto|].
  split; [vm_compute; discriminate|].
  split; [vm_compute; reflexivity|].
  split; [vm_compute; reflexivity|].
  split; [vm_compute; reflexivity|].
  vm_compute; discriminate.
Qed.

Lemma allocate_request_and_counter_witness :
  (In (CIoctlIonAlloc 3 24 33554432 1, Answer 0 0 4) (trace (alloc16 []))
   /\ exists d, CIoctlIonAlloc 3 24 33554432 1
                = CIoctlIonAlloc d
                    (to_size_t (16 + PADDING_CL + sizeof_uint64_t))
                    (Z.shiftl 1 HEAP_ID) ION_FLAG_CACHED)
  /\ (exists d r,
        In (CIoctlIonAlloc d (16 + PADDING_CL + sizeof_uint64_t)
              (Z.shiftl 1 HEAP_ID) ION_FLAG_CACHED, r)
           (trace (alloc16 [])))
  /\ (exists d r t t',
        trace (alloc16 [])
        = t ++ (CIoctlIonAlloc d (mmap_len (this st16))
                  (Z.shiftl 1 HEAP_ID) ION_FLAG_CACHED, r) :: t'
        /\ ret r = 0
        /\ fd (this st16) = out r)
  /\ mmap_len (this st16) = 16 + PADDING_CL + sizeof_uint64_t
  /\ frame_id (this st16) = addr (this st16) + len (this st16) + PADDING_CL
  /\ frame_id (this (after import16))
     = addr (this (after import16)) + len (this (after import16)) + PADDING_CL.
Proof.
  destruct (allocate_request_and_counter HEAP_ID _ Kernel.step)
    as (Hreq & Hmade & Halloc & Himp).
  assert (Hin : In (CIoctlIonAlloc 3 24 33554432 1, Answer 0 0 4)
                   (trace (alloc16 []))) by (vm_compute; auto).
  assert (Hf : final (alloc16 []) = Returned (tt, st16))
    by (vm_compute; reflexivity).
  assert (Hfi : final import16 = Returned (tt, after import16))
    by (vm_compute; reflexivity).
  destruct (Halloc 16 start (Kernel.boot stale [0; 0; 8192]) tt st16 Hf)
    as (Hgr & _ & _ & _ & Hm & Hfr).
  destruct (Himp st16 (k16 [12288]) tt (after import16) Hfi) as (_ & Hfr').
  split; [|split; [|split; [|split; [|split]]]].
  - split; [exact Hin|].
    apply (Hreq 16 start (Kernel.boot stale [0; 0; 8192]) _ _ Hin).
    reflexivity.
  - destruct (Hmade 16 start (Kernel.boot stale [0; 0; 8192]))
      as [(_ & ro & _ & _ & Hab) | (d & r & _ & Hplain)].
    + exfalso. unfold alloc16 in Hf. rewrite Hf in Hab. discriminate Hab.
    + exists d, r. apply Hplain; [lia | reflexivity].
  - exact Hgr.
  - apply Hm; [lia | reflexivity].
  - apply Hfr. vm_compute. split; [discriminate | reflexivity].
  - apply Hfr'. vm_compute. split; [discriminate | reflexivity].
Defined.

Lemma import_maps_without_writing_witness :
  final import16 = Returned (tt, after import16)
  /\ Kernel.k_cells (world import16) = Kernel.k_cells (k16 [12288])
  /\ exists id,
      Kernel.lookup_fd (fd (this st16)) (k16 [12288]) = Some (Kernel.FDmaBuf id)
      /\ forall i, 0 <= i < mmap_len (this st16) ->
           Kernel.load (world import16) (addr (this (after import16)) + i)
           = Some (Kernel.k_cells (k16 [12288]) id i).
Proof.
  assert (Hfi : final import16 = Returned (tt, after import16))
    by (vm_compute; reflexivity).
  destruct (import_maps_without_writing st16 (k16 [12288]))
    as (Hc & _ & _ & _ & Hret).
  destruct (Hret tt (after import16) Hfi) as (_ & id & Hfd & Hl).
  split; [exact Hfi|]. split; [exact Hc|].
  exists id. split; assumption.
Defined.

Lemma allocate_empty_buffer_witness :
  final alloc0 = Returned (tt, after alloc0)
  /\ len (this (after alloc0)) = 0
  /\ mmap_len (this (after alloc0)) = PADDING_CL + sizeof_uint64_t
  /\ forall j, 0 <= j < sizeof_uint64_t ->
       Kernel.load (world alloc0) (frame_id (this (after alloc0)) + j) = Some 0.
Proof.
  assert (Hf : final alloc0 = Returned (tt, after alloc0))
    by (vm_compute; reflexivity).
  destruct (allocate_empty_buffer HEAP_ID start (Kernel.boot stale [0; 0; 8192]))
    as [_ H].
  destruct (H (after alloc0) Hf) as (Hl & Hm & _ & _ & Hz).
  repeat apply conj; assumption.
Defined.

Lemma import_reads_fields_witness :
  final import16 = Returned (tt, after import16)
  /\ exists m,
      trace import16
      = [(CMmap 0 (mmap_len (this st16)) (Z.lor PROT_READ PROT_WRITE)
                MAP_SHARED (fd (this st16)) 0, m)]
      /\ addr (this (after import16)) = ret m
      /\ fd (this (after import16)) = fd (this st16)
      /\ len (this (after import16)) = len (this st16)
      /\ mmap_len (this (after import16)) = mmap_len (this st16).
Proof.
  assert (Hfi : final import16 = Returned (tt, after import16))
    by (vm_compute; reflexivity).
  split; [exact Hfi|].
  destruct (import_reads_fields _ Kernel.step st16 (k16 [12288]) tt
                                (after import16) Hfi)
    as (m & Ht & Ha & _ & Hfd & Hl & Hm & _).
  exists m. repeat apply conj; assumption.
Defined.

(** ** Concrete runs for the further properties *)

(** A second object allocates while the first buffer is in use; the
    mapper places its region at 12288. *)
Definition alloc_second : result Kernel.state (unit * proc) :=
  run Kernel.step (allocate HEAP_ID 16 (mkProc (fh st16) blank))
      (k16 [0; 12288]).

(** [sync] in a direction that is neither of the two. *)
Definition sync_nowhere : result Kernel.state (Z * proc) :=
  run Kernel.step (sync FROM_DEVICE TO_DEVICE 2 st16) (k16 []).

(** The plain buffer of [alloc16] is live, whatever is left of the
    script. *)
Lemma st16_live (rest : list Z) : live (this st16) (k16 rest).
Proof.
  split; [reflexivity|]. split; [reflexivity|]. split.
  - exists 0. split; [reflexivity|].
    intros i Hi. exists (Kernel.mkVma 8192 24 0).
    split; [|split; reflexivity].
    exact (find_vma_head (k16 rest) 8192 24 0 i [] eq_refl Hi).
  - intros H. exfalso. apply H. reflexivity.
Defined.

Lemma allocate_opens_device_once_witness :
  (fh st16 = Some 3
   /\ forall e, In e (trace alloc_second) -> is_open (fst e) = false)
  /\ (fh start = None
      /\ exists ro t, trace (alloc16 []) = (open_request, ro) :: t)
  /\ exists d, fh st16 = Some d.
Proof.
  assert (Hf : final (alloc16 []) = Returned (tt, st16))
    by (vm_compute; reflexivity).
  split; [|split].
  - split; [reflexivity|]. intros e He.
    apply (proj1 (allocate_opens_device_once HEAP_ID _ Kernel.step 16
                    (mkProc (fh st16) blank) (k16 [0; 12288]))
                 3 eq_refl e He).
  - split; [reflexivity|].
    destruct (proj1 (proj2 (allocate_opens_device_once HEAP_ID _ Kernel.step 16
                              start (Kernel.boot stale [0; 0; 8192])))
                eq_refl) as (ro & t & Ht & _).
    exists ro, t. exact Ht.
  - destruct (proj2 (proj2 (allocate_opens_device_once HEAP_ID _ Kernel.step 16
                              start (Kernel.boot stale [0; 0; 8192])))
                tt st16 Hf) as (d & Hd & _).
    exists d. exact Hd.
Defined.

Lemma sync_direction_witness :
  (2 <> FROM_DEVICE /\ 2 <> TO_DEVICE
   /\ trace sync_nowhere = [] /\ final sync_nowhere = Aborted)
  /\ forall e, In e (trace (sync16 [4; 0])) ->
       exists flags,
         fst e = CIoctlSync (fd (this st16)) flags
         /\ Z.land flags DMA_BUF_SYNC_RW = DMA_BUF_SYNC_RW.
Proof.
  assert (H1 : 2 <> FROM_DEVICE) by discriminate.
  assert (H2 : 2 <> TO_DEVICE) by discriminate.
  split.
  - destruct (proj1 (sync_direction FROM_DEVICE TO_DEVICE _ Kernel.step 2
                       st16 (k16 [])) H1 H2) as (Ht & Hf & _).
    split; [exact H1|]. split; [exact H2|]. split; [exact Ht | exact Hf].
  - intros e He.
    destruct (proj2 (sync_direction FROM_DEVICE TO_DEVICE _ Kernel.step
                       TO_DEVICE st16 (k16 [4; 0])) e He)
      as (flags & Hc & Hrw & _).
    exists flags. split; [exact Hc | exact Hrw].
Defined.

Lemma init_cl_registers_witness :
  addr (this st16) mod DEVICE_PAGE_SIZE_CL = 0
  /\ exists r,
      trace (reg16 [])
      = [(CClCreateBuffer 7
            (Z.lor CL_MEM_USE_HOST_PTR CL_MEM_EXT_HOST_PTR_QCOM)
            (len (this st16)) CL_MEM_ION_HOST_PTR_QCOM
            CL_MEM_HOST_UNCACHED_QCOM (fd (this st16)) (addr (this st16)), r)].
Proof.
  assert (Ha : addr (this st16) mod DEVICE_PAGE_SIZE_CL = 0) by reflexivity.
  split; [exact Ha|].
  destruct (init_cl_registers _ Kernel.step 0 7 st16 (k16 [0]) Ha)
    as (r & Ht & _).
  exists r. exact Ht.
Defined.


Lemma init_cl_on_live_witness :
  fst (Kernel.choose (k16 [0])) = 0
  /\ exists m,
      final (reg16 []) = Returned (tt, mkProc (fh st16) (set_buf_cl m (this st16)))
      /\ m <> 0
      /\ live (set_buf_cl m (this st16)) (world (reg16 [])).
Proof.
  assert (Hc : fst (Kernel.choose (k16 [0])) = 0) by reflexivity.
  split; [exact Hc|].
  destruct (proj1 (init_cl_on_live 0 7 st16 (k16 [0]) (st16_live [0])) Hc)
    as (m & Hf & Hm & Hl & _).
  exists m. split; [exact Hf|]. split; [exact Hm | exact Hl].
Defined.

Lemma free_releases_live_witness :
  Forall (fun d => d = 0) (firstn 3 (Kernel.k_script (k16 [])))
  /\ final (free16 []) = Returned (0, st16)
  /\ Kernel.lookup_fd (fd (this st16)) (world (free16 [])) = None
  /\ forall i, 0 <= i < mmap_len (this st16) ->
       Kernel.load (world (free16 [])) (addr (this st16) + i) = None.
Proof.
  assert (Hs : Forall (fun d => d = 0) (firstn 3 (Kernel.k_script (k16 []))))
    by constructor.
  destruct (free_releases_live st16 (k16 []) (st16_live []))
    as (v & Hf & _ & H0 & Hok).
  specialize (Hok Hs). subst v.
  destruct (H0 eq_refl) as (Hfd & Hl & _).
  split; [exact Hs|]. split; [exact Hf|]. split; [exact Hfd | exact Hl].
Defined.

Lemma import_second_view_witness :
  final import16 = Returned (tt, after import16)
  /\ live (this (after import16)) (world import16)
  /\ forall i, 0 <= i < mmap_len (this st16) ->
       Kernel.load (world import16) (addr (this (after import16)) + i)
       = Kernel.load (k16 [12288]) (addr (this st16) + i).
Proof.
  assert (Hf : final import16 = Returned (tt, after import16))
    by (vm_compute; reflexivity).
  destruct (import_second_view st16 (k16 [12288]) tt (after import16)
              (st16_live [12288]) Hf) as [Hl Hv].
  split; [exact Hf|]. split; [exact Hl|].
  intros i Hi. exact (proj1 (Hv i Hi)).
Defined.

Lemma allocate_makes_live_witness :
  buf_cl (this start) = 0
  /\ final (alloc16 []) = Returned (tt, st16)
  /\ live (this st16) (world (alloc16 [])).
Proof.
  assert (Hb : buf_cl (this start) = 0) by reflexivity.
  assert (Hf : final (alloc16 []) = Returned (tt, st16))
    by (vm_compute; reflexivity).
  destruct (allocate_makes_live HEAP_ID 16 start
              (Kernel.boot stale [0; 0; 8192]) tt st16 Hb Hf) as [Hl _].
  split; [exact Hb|]. split; [exact Hf | exact Hl].
Defined.

Lemma allocate_keeps_other_buffers_witness :
  final alloc_second = Returned (tt, after alloc_second)
  /\ exists id,
      Kernel.lookup_fd (fd (this (after alloc_second))) (world alloc_second)
      = Some (Kernel.FDmaBuf id)
      /\ forall i o, i <> id ->
           Kernel.k_cells (world alloc_second) i o
           = Kernel.k_cells (k16 [0; 12288]) i o.
Proof.
  assert (Hf : final alloc_second = Returned (tt, after alloc_second))
    by (vm_compute; reflexivity).
  split; [exact Hf|].
  destruct (allocate_keeps_other_buffers HEAP_ID 16 (mkProc (fh st16) blank)
              (k16 [0; 12288]) tt (after alloc_second) Hf)
    as (id & Hfd & Hc & _).
  exists id. split; [exact Hfd | exact Hc].
Defined.

Lemma sync_retries_through_interruptions_witness :
  (TO_DEVICE = FROM_DEVICE \/ TO_DEVICE = TO_DEVICE)
  /\ Kernel.lookup_fd (fd (this st16)) (k16 [4; 4; 0; 9])
     = Some (Kernel.FDmaBuf 0)
  /\ (final (sync16 [4; 4; 0; 9]) = Returned (0, st16)
      /\ List.length (trace (sync16 [4; 4; 0; 9])) = 3%nat
      /\ Kernel.k_script (world (sync16 [4; 4; 0; 9])) = [9])
  /\ (final (sync16 (repeat EINTR 101 ++ [0])) = Returned (-1, st16)
      /\ List.length (trace (sync16 (repeat EINTR 101 ++ [0]))) = 101%nat
      /\ Kernel.k_script (world (sync16 (repeat EINTR 101 ++ [0]))) = [0]).
Proof.
  assert (Hd : TO_DEVICE = FROM_DEVICE \/ TO_DEVICE = TO_DEVICE)
    by (right; reflexivity).
  split; [exact Hd|]. split; [reflexivity|]. split.
  - apply (proj1 (sync_retries_through_interruptions FROM_DEVICE TO_DEVICE
                    TO_DEVICE st16 (k16 [4; 4; 0; 9]) 0 [9] Hd eq_refl)
                 2%nat); [lia | reflexivity].
  - apply (proj2 (sync_retries_through_interruptions FROM_DEVICE TO_DEVICE
                    TO_DEVICE st16 (k16 (repeat EINTR 101 ++ [0])) 0 [0]
                    Hd eq_refl)).
    reflexivity.
Defined.
